(** * The conversation visualiser of sonnetx/a2a, checked against its specification

    The development embeds the two [AgentAnimation] components of the
    repository:

    - the live view ([src/unnamed/part_003]): geometry helpers, the circular
      layout, the avatar's speech bubble, the message orb, the bubble timers
      of [Scene] and the socket / start-conversation handlers;
    - the replay view (the last document of
      [src/frontend/src/components/ChatInterface.tsx]), which owns the
      playback clock [usePlayback].

    Modelling conventions.

    - A JavaScript [number] is an IEEE-754 double.  It is idealised here as a
      real number ([R]): every statement about coordinates, times and widths
      is a statement of exact arithmetic, which the code realises up to
      floating-point rounding.  A division by zero, which gives an infinity
      or NaN in JavaScript, is outside the model: every result about a
      quotient assumes a divisor that is not zero.  Counts, turn numbers and
      millisecond clocks are integers ([nat], [Z]).  Where a result is about
      exact equality of computed coordinates, rounding decides it: the
      interpolation helpers are embedded a second time over binary64
      ([Binary64]), and such a result is settled there.
    - A JavaScript string is a [string]; its characters stand for the UTF-16
      code units that [length] and [substring] count.
    - React state is a record; a state setter called with an updater function
      is that function applied to the state.  A handler is a function from
      state to state, and a handler that can throw also returns the
      exception.
    - [Map] and plain objects used as dictionaries are finite maps
      ([gmap string _]): the map holds the own properties.  Reading a plain
      object by a computed key also finds what the object inherits from
      [Object.prototype]; [PlainObject] models that read. *)

From Stdlib Require Import Reals Lra Lia ZArith String List Bool.
From Stdlib Require Import Ascii DecimalString.
From Stdlib Require DecimalZ DecimalPos.
From Stdlib Require Floats.
From stdpp Require Import gmap strings.

Open Scope R_scope.

(** * Part I: the embedding of the source *)

(** ** Geometry utilities ([part_003], lines 5-20) *)

Module Geometry.

(** [const TAU = Math.PI * 2] *)
Definition TAU : R := PI * 2.

(** [type Vec3 = [number, number, number]] *)
Definition Vec3 : Type := (R * R * R)%type.

Definition vx (v : Vec3) : R := fst (fst v).
Definition vy (v : Vec3) : R := snd (fst v).
Definition vz (v : Vec3) : R := snd v.

(** [polarToVec3(r, angle, y = 0)] *)
Definition polarToVec3 (r angle y : R) : Vec3 :=
  (cos angle * r, y, sin angle * r).

(** [lerp(a, b, t)] *)
Definition lerp (a b t : R) : R := a + (b - a) * t.

(** [vec3Lerp(a, b, t)] *)
Definition vec3Lerp (a b : Vec3) (t : R) : Vec3 :=
  (lerp (vx a) (vx b) t, lerp (vy a) (vy b) t, lerp (vz a) (vz b) t).

(** [bezier3(a, b, c, d, t)]: two levels of interpolation below the last. *)
Definition bezier3 (a b c d : Vec3) (t : R) : Vec3 :=
  let ab := vec3Lerp a b t in
  let bc := vec3Lerp b c t in
  let cd := vec3Lerp c d t in
  let abbc := vec3Lerp ab bc t in
  let bccd := vec3Lerp bc cd t in
  vec3Lerp abbc bccd t.

(** The comparison operators of the source, as booleans. *)
Definition Rltb (x y : R) : bool := if Rlt_dec x y then true else false.

(** The cubic Bezier curve as the specification names it: the explicit
    polynomial that the De Casteljau construction computes, coordinate by
    coordinate. *)
Definition bernstein3 (a b c d t : R) : R :=
  (1 - t) ^ 3 * a + 3 * (1 - t) ^ 2 * t * b + 3 * (1 - t) * t ^ 2 * c + t ^ 3 * d.

Definition cubicBezier_spec (a b c d : Vec3) (t : R) : Vec3 :=
  (bernstein3 (vx a) (vx b) (vx c) (vx d) t,
   bernstein3 (vy a) (vy b) (vy c) (vy d) t,
   bernstein3 (vz a) (vz b) (vz c) (vz d) t).

End Geometry.

Export Geometry.

(** ** The message orb ([part_003], lines 142-174) *)

Module Orb.

(** The two inner control points built by [MessageOrb]. *)
Definition mid1 (fromPos toPos : Vec3) (height : R) : Vec3 :=
  ((vx fromPos * 2 + vx toPos) / 3, height, (vz fromPos * 2 + vz toPos) / 3).

Definition mid2 (fromPos toPos : Vec3) (height : R) : Vec3 :=
  ((vx fromPos + vx toPos * 2) / 3, height, (vz fromPos + vz toPos * 2) / 3).

(** [MessageOrb]: [None] is the [return null] of the component, [Some p] the
    position of the rendered group. *)
Definition MessageOrb (fromPos toPos : Vec3) (bornAt duration height now : R)
  : option Vec3 :=
  let tNorm := (now - bornAt) / duration in
  if Rltb tNorm 0 || Rltb 1 tNorm then None
  else Some (bezier3 fromPos (mid1 fromPos toPos height)
                     (mid2 fromPos toPos height) toPos tNorm).

(** The control points as the specification words them: the straight-line
    interpolation between sender and receiver, one third and two thirds of
    the way, lifted to the arc height. *)
Definition raise (height : R) (v : Vec3) : Vec3 := (vx v, height, vz v).

Definition mid1_spec (fromPos toPos : Vec3) (height : R) : Vec3 :=
  raise height (vec3Lerp fromPos toPos (1 / 3)).

Definition mid2_spec (fromPos toPos : Vec3) (height : R) : Vec3 :=
  raise height (vec3Lerp fromPos toPos (2 / 3)).

(** The normalised progress that [MessageOrb] computes. *)
Definition tNorm (bornAt duration now : R) : R := (now - bornAt) / duration.

End Orb.

Export Orb.

(** ** Circular layout ([part_003], lines 22-32) *)

Module Layout.

(** The loop [agents.forEach((a, i) => map.set(a.id, polarToVec3(radius,
    (i / n) * TAU)))], from index [i] on.  An agent is its [id]. *)
Fixpoint forEach_set (radius : R) (n i : nat) (agents : list string)
    (map : gmap string Vec3) : gmap string Vec3 :=
  match agents with
  | [] => map
  | id :: rest =>
      let angle := INR i / INR n * TAU in
      forEach_set radius n (S i) rest (<[id := polarToVec3 radius angle 0]> map)
  end.

(** [useCircleLayout(agents, radius = 6)] *)
Definition useCircleLayout (agents : list string) (radius : R)
  : gmap string Vec3 :=
  let n := Nat.max (length agents) 1 in
  forEach_set radius n 0 agents ∅.

(** The point the specification assigns to index [i] of [N]. *)
Definition ring_point (r : R) (N i : nat) : Vec3 :=
  (r * cos (2 * PI * INR i / INR N), 0, r * sin (2 * PI * INR i / INR N)).

(** Distance of a point from the origin. *)
Definition norm3 (p : Vec3) : R := sqrt (vx p * vx p + vy p * vy p + vz p * vz p).

End Layout.

Export Layout.

(** ** The avatar's speech bubble ([part_003], lines 66-70, 92 and 131) *)

Module Avatar.

Open Scope string_scope.

(** JavaScript truthiness of a string: only the empty string is falsy. *)
Definition truthy (s : string) : bool := negb (String.eqb s "").

(** [const messageLength = currentMessage ? currentMessage.length : 0];
    [None] is a [null] message. *)
Definition messageLength (currentMessage : option string) : nat :=
  match currentMessage with
  | Some s => if truthy s then String.length s else 0%nat
  | None => 0%nat
  end.

(** [const bubbleWidth = Math.min(messageLength * 0.06 + 1.6, 5.8)] *)
Definition bubbleWidth (currentMessage : option string) : R :=
  Rmin (INR (messageLength currentMessage) * 0.06 + 1.6) 5.8.

Definition bubbleHeight : R := 1.05.

(** [const textMaxWidth = Math.max(bubbleWidth - 0.35, 1.2)] *)
Definition textMaxWidth (currentMessage : option string) : R :=
  Rmax (bubbleWidth currentMessage - 0.35) 1.2.

(** The text child of the bubble:
    [currentMessage.length > 220 ? currentMessage.substring(0, 220) + '...' : currentMessage] *)
Definition bubbleText (currentMessage : string) : string :=
  if (220 <? String.length currentMessage)%nat
  then substring 0 220 currentMessage ++ "..."
  else currentMessage.

(** What [AgentAvatar] draws above the body: nothing for a null or empty
    message ([currentMessage && ...]), otherwise a bubble of the computed
    width holding the computed text. *)
Definition speechBubble (currentMessage : option string) : option (R * string) :=
  match currentMessage with
  | Some s =>
      if truthy s then Some (bubbleWidth currentMessage, bubbleText s) else None
  | None => None
  end.

(** The width as the specification writes it. *)
Definition bubbleWidth_spec (text_length : nat) : R :=
  Rmin (0.06 * INR text_length + 1.6) 5.8.

End Avatar.

Export Avatar.

(** ** The playback clock ([usePlayback] and [Scene] of the replay view,
    last document of [frontend/src/components/ChatInterface.tsx]) *)

Module Playback.

(** The state owned by [usePlayback]: the [time] and [playing] React states
    and the [speedRef] reference. *)
Record Clock : Type := mkClock { time : R; playing : bool; speedRef : R }.

(** [usePlayback(duration, { autoPlay = true, speed = 1 })] on mount. *)
Definition usePlayback_init (autoPlay : bool) (speed : R) : Clock :=
  {| time := 0; playing := autoPlay; speedRef := speed |}.

(** The frame callback:
    [if (!playing) return; setTime(t => { const next = t + delta * speedRef.current;
       return next > duration ? duration : next })] *)
Definition frame (duration delta : R) (c : Clock) : Clock :=
  if playing c then
    let next := time c + delta * speedRef c in
    {| time := if Rltb duration next then duration else next;
       playing := playing c; speedRef := speedRef c |}
  else c.

Definition play (c : Clock) : Clock :=
  {| time := time c; playing := true; speedRef := speedRef c |}.

Definition pause (c : Clock) : Clock :=
  {| time := time c; playing := false; speedRef := speedRef c |}.

(** [seek = t => setTime(Math.max(0, Math.min(duration, t)))] *)
Definition seek (duration t : R) (c : Clock) : Clock :=
  {| time := Rmax 0 (Rmin duration t); playing := playing c; speedRef := speedRef c |}.

(** [useEffect(() => { speedRef.current = speed }, [speed])] after the HUD
    called [setSpeed]. *)
Definition setSpeed (speed : R) (c : Clock) : Clock :=
  {| time := time c; playing := playing c; speedRef := speed |}.

(** [durationProp ?? Math.max(6, Math.max(...interactions.map(m => m.t)) + 3)];
    [Math.max()] of no argument is minus infinity, which leaves 6. *)
Definition sceneDuration (durationProp : option R) (ts : list R) : R :=
  match durationProp with
  | Some d => d
  | None =>
      match ts with
      | [] => 6
      | t :: rest => Rmax 6 (fold_left Rmax rest t + 3)
      end
  end.

(** What can happen to the clock: a rendered frame, or a control of the HUD. *)
Inductive Event : Type :=
| Frame (delta : R)
| Play
| Pause
| Seek (t : R)
| Speed (s : R).

Definition step (duration : R) (c : Clock) (e : Event) : Clock :=
  match e with
  | Frame delta => frame duration delta c
  | Play => play c
  | Pause => pause c
  | Seek t => seek duration t c
  | Speed s => setSpeed s c
  end.

Definition run (duration : R) (c : Clock) (es : list Event) : Clock :=
  fold_left (step duration) es c.

(** The rendering host hands out non-negative frame deltas and the HUD only
    offers positive speeds. *)
Definition valid (e : Event) : Prop :=
  match e with
  | Frame delta => 0 <= delta
  | Speed s => 0 < s
  | _ => True
  end.

(** The clock invariant, with the sign of the speed it rests on. *)
Definition clock_ok (duration : R) (c : Clock) : Prop :=
  0 <= time c <= duration /\ 0 < speedRef c.

End Playback.

Export Playback.

(** ** The live view: state and handlers of [AgentAnimation]
    ([part_003], lines 234-258 and 345-528) *)

Module Live.

Open Scope string_scope.

(** [interface ConversationMessage] *)
Record ConversationMessage : Type := mkMessage {
  msg_id : string;
  msg_speaker : string;
  msg_message : string;
  msg_timestamp : R;
  msg_turnNumber : Z
}.

(** [interface Agent] *)
Record Agent : Type := mkAgent {
  agent_id : string;
  agent_name : string;
  agent_occupation : option string;
  agent_color : string;
  agent_emoji : string;
  agent_isActive : bool
}.

(** [interface ConversationUpdate] *)
Record ConversationUpdate : Type := mkUpdate {
  conversation_id : string;
  upd_speaker : string;
  upd_message : string;
  turn_number : Z;
  is_finished : bool
}.

(** A parsed socket payload [{ type, data }]. *)
Record WsData : Type := mkWsData {
  ws_type : string;
  ws_data : ConversationUpdate
}.

(** A profile of [/api/profiles]; only its display name is read. *)
Record Profile : Type := mkProfile { profile_name : string }.

Inductive ConnectionStatus : Type := connecting | connected | disconnected.

Definition ConnectionStatus_eqb (a b : ConnectionStatus) : bool :=
  match a, b with
  | connecting, connecting | connected, connected
  | disconnected, disconnected => true
  | _, _ => false
  end.

(** The React state of [AgentAnimation]. *)
Record AppState : Type := mkApp {
  connectionStatus : ConnectionStatus;
  availableProfiles : gmap string Profile;
  isRunning : bool;
  messages : list ConversationMessage;
  agents : list Agent
}.

(** The state on mount:
    [{ id: 'user', name: 'You', color: '#FBBF24', emoji: '🧑', isActive: false }]. *)
Definition userAgent : Agent :=
  {| agent_id := "user"; agent_name := "You"; agent_occupation := None;
     agent_color := "#FBBF24"; agent_emoji := "🧑"; agent_isActive := false |}.

Definition initialState : AppState :=
  {| connectionStatus := disconnected; availableProfiles := ∅;
     isRunning := false; messages := []; agents := [userAgent] |}.

(** The state setters. *)
Definition setConnectionStatus (c : ConnectionStatus) (s : AppState) : AppState :=
  {| connectionStatus := c; availableProfiles := availableProfiles s;
     isRunning := isRunning s; messages := messages s; agents := agents s |}.

Definition setAvailableProfiles (p : gmap string Profile) (s : AppState) : AppState :=
  {| connectionStatus := connectionStatus s; availableProfiles := p;
     isRunning := isRunning s; messages := messages s; agents := agents s |}.

Definition setIsRunning (b : bool) (s : AppState) : AppState :=
  {| connectionStatus := connectionStatus s; availableProfiles := availableProfiles s;
     isRunning := b; messages := messages s; agents := agents s |}.

Definition setMessages (f : list ConversationMessage -> list ConversationMessage)
    (s : AppState) : AppState :=
  {| connectionStatus := connectionStatus s; availableProfiles := availableProfiles s;
     isRunning := isRunning s; messages := f (messages s); agents := agents s |}.

Definition setAgents (f : list Agent -> list Agent) (s : AppState) : AppState :=
  {| connectionStatus := connectionStatus s; availableProfiles := availableProfiles s;
     isRunning := isRunning s; messages := messages s; agents := f (agents s) |}.

(** [{ ...agent, name }] and [{ ...agent, isActive }] *)
Definition withName (n : string) (a : Agent) : Agent :=
  {| agent_id := agent_id a; agent_name := n; agent_occupation := agent_occupation a;
     agent_color := agent_color a; agent_emoji := agent_emoji a;
     agent_isActive := agent_isActive a |}.

Definition withActive (b : bool) (a : Agent) : Agent :=
  {| agent_id := agent_id a; agent_name := agent_name a;
     agent_occupation := agent_occupation a; agent_color := agent_color a;
     agent_emoji := agent_emoji a; agent_isActive := b |}.

(** A template literal prints an integral number in decimal. *)
Definition Number_toString (n : Z) : string := NilZero.string_of_int (Z.to_int n).

(** [Date.now() / 1000], from the millisecond clock. *)
Definition seconds (now_ms : Z) : R := IZR now_ms / 1000.

(** [handleWebSocketMessage(data)]; [now_ms] is what [Date.now()] returns. *)
Definition handleWebSocketMessage (now_ms : Z) (data : WsData) (s : AppState)
  : AppState :=
  if String.eqb (ws_type data) "conversation_update" then
    let update := ws_data data in
    if String.eqb (upd_speaker update) "system" then
      if is_finished update then setIsRunning false s else s
    else
      let message :=
        {| msg_id := conversation_id update +:+ "_" +:+ Number_toString (turn_number update);
           msg_speaker := upd_speaker update;
           msg_message := upd_message update;
           msg_timestamp := seconds now_ms;
           msg_turnNumber := turn_number update |} in
      let s1 := setMessages (fun prev => (prev ++ [message])%list) s in
      setAgents
        (fun prev =>
           map (fun agent =>
                  withActive (String.eqb (agent_name agent) (upd_speaker update)
                              || String.eqb (agent_name agent) "You") agent)
               prev)
        s1
  else s.

(** What a handler can throw. *)
Inductive Exception : Type :=
| SyntaxError   (* [JSON.parse] on an unparseable payload *)
| FetchError.   (* a rejected [fetch], or the [Error] thrown on a bad status *)

(** The events of the socket, as the host delivers them to the four
    listeners installed by [connectWebSocket]. *)
Inductive SocketEvent : Type :=
| Opened
| Received (now_ms : Z) (payload : string)
| Closed
| Errored.

Section Socket.

(** [JSON.parse]: the host's parser, [None] when it throws.  A payload that
    parses is taken to have the shape the code annotates it with. *)
Variable JSON_parse : string -> option WsData.

(** [websocket.onmessage = (event) => { const data = JSON.parse(event.data);
    handleWebSocketMessage(data) }]: the new state, and the exception that
    escaped the listener if one did. *)
Definition onmessage (now_ms : Z) (event_data : string) (s : AppState)
  : AppState * option Exception :=
  match JSON_parse event_data with
  | None => (s, Some SyntaxError)
  | Some data => (handleWebSocketMessage now_ms data s, None)
  end.

(** [connectWebSocket] sets the status to connecting before it installs the
    four listeners. *)
Definition connectWebSocket (s : AppState) : AppState :=
  setConnectionStatus connecting s.

Definition onopen (s : AppState) : AppState := setConnectionStatus connected s.
Definition onclose (s : AppState) : AppState := setConnectionStatus disconnected s.
Definition onerror (s : AppState) : AppState := setConnectionStatus disconnected s.

Definition listener (e : SocketEvent) (s : AppState) : AppState * option Exception :=
  match e with
  | Opened => (onopen s, None)
  | Received now_ms payload => onmessage now_ms payload s
  | Closed => (onclose s, None)
  | Errored => (onerror s, None)
  end.

(** The host's dispatch: each event runs its listener; an exception that
    escapes a listener is reported (here: logged) and the next event is
    dispatched as usual. *)
Fixpoint dispatch (es : list SocketEvent) (s : AppState)
  : AppState * list Exception :=
  match es with
  | [] => (s, [])
  | e :: rest =>
      let '(s1, thrown) := listener e s in
      let '(s2, log) := dispatch rest s1 in
      (s2, match thrown with Some x => x :: log | None => log end)
  end.

End Socket.

(** [prev[0]] of a roster.  The roster always starts with the local user;
    were it empty, [prev[0]] would be undefined and its spread would add no
    field, which [blankAgent] stands for. *)
Definition blankAgent : Agent :=
  {| agent_id := ""; agent_name := ""; agent_occupation := None;
     agent_color := ""; agent_emoji := ""; agent_isActive := false |}.

(** [loadProfiles], once the response has been read:
    [setAvailableProfiles(data.profiles)], then, when [my_agent] has a name,
    [setAgents(prev => [{ ...prev[0], name: myName }, ...prev.slice(1)])]. *)
Definition loadProfiles (profiles : gmap string Profile) (s : AppState) : AppState :=
  let s1 := setAvailableProfiles profiles s in
  match profiles !! "my_agent" with
  | Some p =>
      if truthy (profile_name p)
      then setAgents (fun prev =>
                        withName (profile_name p) (hd blankAgent prev) :: tl prev) s1
      else s1
  | None => s1
  end.

(** How the [fetch] of [startConversation] ends: it rejects, or it resolves
    with a status ([ok]) and a body that is JSON or not. *)
Inductive FetchOutcome : Type :=
| NetworkFailure
| Response (ok : bool) (body_is_json : bool).

Definition fetch_failed (r : FetchOutcome) : bool :=
  match r with
  | NetworkFailure => true
  | Response ok _ => negb ok
  end.

(** The partner added by [startConversation]. *)
Definition newAgent (targetProfile : Profile) : Agent :=
  {| agent_id := "person_alice"; agent_name := profile_name targetProfile;
     agent_occupation := None; agent_color := "#93C5FD"; agent_emoji := "🤖";
     agent_isActive := true |}.

(** [availableProfiles['my_agent']?.name || prev[0].name] *)
Definition myAgentName (profiles : gmap string Profile) (fallback : string) : string :=
  match profiles !! "my_agent" with
  | Some p => if truthy (profile_name p) then profile_name p else fallback
  | None => fallback
  end.

(** The part of [startConversation] that runs before the request is sent,
    once the guard has let the call through. *)
Definition startConversation_before_fetch (s : AppState) : AppState :=
  let s1 := setIsRunning true s in
  let s2 := setMessages (fun _ => []) s1 in
  match availableProfiles s !! "person_alice" with
  | Some targetProfile =>
      setAgents
        (fun prev =>
           let a0 := hd blankAgent prev in
           [withName (myAgentName (availableProfiles s) (agent_name a0))
              (withActive true a0);
            newAgent targetProfile])
        s2
  | None => s2
  end.

(** The part after the [await]s: the [catch] block runs on a rejected fetch,
    on a status that is not ok, and on a body that is not JSON. *)
Definition startConversation_after_fetch (r : FetchOutcome) (s : AppState)
  : AppState :=
  match r with
  | Response true true => s
  | _ => setIsRunning false s
  end.

(** [startConversation], with the outcome of its request. *)
Definition startConversation (r : FetchOutcome) (s : AppState) : AppState :=
  if isRunning s || negb (ConnectionStatus_eqb (connectionStatus s) connected)
  then s
  else startConversation_after_fetch r (startConversation_before_fetch s).

Definition stopConversation (s : AppState) : AppState := setIsRunning false s.

(** The message record built from an update. *)
Definition message_of (now_ms : Z) (u : ConversationUpdate) : ConversationMessage :=
  {| msg_id := conversation_id u +:+ "_" +:+ Number_toString (turn_number u);
     msg_speaker := upd_speaker u;
     msg_message := upd_message u;
     msg_timestamp := seconds now_ms;
     msg_turnNumber := turn_number u |}.

(** The activity flag an update gives to an agent. *)
Definition active_after (speaker : string) (a : Agent) : bool :=
  String.eqb (agent_name a) speaker || String.eqb (agent_name a) "You".

(** The reading of C9 under test: agents that are neither the speaker nor
    the local user keep the activity flag they had. *)
Definition others_untouched (speaker : string) (before after : list Agent) : Prop :=
  forall i a a',
    before !! i = Some a -> after !! i = Some a' ->
    agent_name a <> speaker -> agent_id a <> "user"%string ->
    agent_isActive a' = agent_isActive a.

End Live.

Export Live.

(** ** The live [Scene]: clock and speech-bubble timers
    ([part_003], lines 262-289 and 308) *)

Module LiveScene.

(** The React state of [Scene], together with the timeouts it has handed to
    the host and that have not fired yet: the wall-clock instant (in
    milliseconds) at which each is due and the speaker its callback
    captured. *)
Record SceneState : Type := mkScene {
  currentTime : R;
  agentMessages : gmap string string;
  timeouts : list (Z * string)
}.

Definition Scene_init : SceneState :=
  {| currentTime := 0; agentMessages := ∅; timeouts := [] |}.

(** [useFrame((_, delta) => { setCurrentTime(t => t + delta) })] *)
Definition onFrame (delta : R) (s : SceneState) : SceneState :=
  {| currentTime := currentTime s + delta; agentMessages := agentMessages s;
     timeouts := timeouts s |}.

(** The effect on [messages], run at wall-clock instant [now_ms]:
    the latest message becomes its speaker's bubble and a timeout of 5000 ms
    is set; no handle of the timeout is kept and no cleanup is returned. *)
Definition messagesEffect (now_ms : Z) (messages : list ConversationMessage)
    (s : SceneState) : SceneState :=
  match last messages with
  | None => s
  | Some latestMessage =>
      {| currentTime := currentTime s;
         agentMessages :=
           <[msg_speaker latestMessage := msg_message latestMessage]> (agentMessages s);
         timeouts := timeouts s ++ [((now_ms + 5000)%Z, msg_speaker latestMessage)] |}
  end.

(** The host runs the callbacks of the timeouts that are due, oldest first;
    a callback removes its speaker's entry:
    [const updated = { ...prev }; delete updated[latestMessage.speaker]]. *)
Fixpoint runTimers (now_ms : Z) (pending : list (Z * string))
    (am : gmap string string) : list (Z * string) * gmap string string :=
  match pending with
  | [] => ([], am)
  | (due, speaker) :: rest =>
      if (due <=? now_ms)%Z then runTimers now_ms rest (delete speaker am)
      else
        let '(kept, am') := runTimers now_ms rest am in
        ((due, speaker) :: kept, am')
  end.

(** The scene once the wall clock has reached [now_ms]. *)
Definition advance (now_ms : Z) (s : SceneState) : SceneState :=
  let '(kept, am) := runTimers now_ms (timeouts s) (agentMessages s) in
  {| currentTime := currentTime s; agentMessages := am; timeouts := kept |}.

(** A new [messages] array reaches the scene at [now_ms]. *)
Definition receive (now_ms : Z) (messages : list ConversationMessage)
    (s : SceneState) : SceneState :=
  messagesEffect now_ms messages (advance now_ms s).

(** A session: the successive [messages] arrays with their arrival times. *)
Definition replay (arrivals : list (Z * list ConversationMessage)) : SceneState :=
  fold_left (fun s a => receive (fst a) (snd a) s) arrivals Scene_init.

(** [currentMessage={agentMessages[agent.name] || null}] at instant [now_ms]. *)
Definition bubbleAt (arrivals : list (Z * list ConversationMessage))
    (now_ms : Z) (name : string) : option string :=
  match agentMessages (advance now_ms (replay arrivals)) !! name with
  | Some text => if truthy text then Some text else None
  | None => None
  end.

(** Is a clear of [name]'s bubble pending with a due time in [(after, upto]]? *)
Definition clearDue (after upto : Z) (name : string) (pending : list (Z * string))
  : bool :=
  existsb (fun x => (after <? fst x)%Z && (fst x <=? upto)%Z && String.eqb (snd x) name)
          pending.

(** Last-message-wins, as the specification asks for it: a message that
    follows another of the same agent within its five seconds stays on
    display for five seconds of its own. *)
Definition last_message_wins : Prop :=
  forall (m1 m2 : ConversationMessage) (t1 t2 t : Z),
    msg_speaker m1 = msg_speaker m2 ->
    truthy (msg_message m2) = true ->
    (t1 <= t2 < t1 + 5000)%Z -> (t2 <= t < t2 + 5000)%Z ->
    bubbleAt [(t1, [m1]); (t2, [m1; m2])] t (msg_speaker m2)
    = Some (msg_message m2).

End LiveScene.

Export LiveScene.

(** ** Concrete inputs used to run the model *)

Module Scenarios.

Open Scope string_scope.

(** A text of 221 characters, for the long case. *)
Definition long_text : string := string_of_list_ascii (repeat "a"%char 221).

(** The control event that ends a conversation. *)
Definition system_finished : WsData :=
  {| ws_type := "conversation_update";
     ws_data := {| conversation_id := "c1"; upd_speaker := "system";
                   upd_message := "done"; turn_number := 8; is_finished := true |} |}.

(** The scenario of the specification: Alice and Bob are on stage, both
    active as [startConversation] leaves a roster, and Alice says "hi". *)
Definition alice : Agent :=
  {| agent_id := "person_alice"; agent_name := "Alice"; agent_occupation := None;
     agent_color := "#93C5FD"; agent_emoji := "🤖"; agent_isActive := true |}.

Definition bob : Agent :=
  {| agent_id := "person_bob"; agent_name := "Bob"; agent_occupation := None;
     agent_color := "#34D399"; agent_emoji := "🤖"; agent_isActive := true |}.

Definition alice_and_bob : AppState :=
  {| connectionStatus := connected; availableProfiles := ∅; isRunning := true;
     messages := []; agents := [alice; bob] |}.

(** The roster as the handlers build it: profiles loaded, socket open,
    conversation started. *)
Definition loaded_profiles : gmap string Profile :=
  <["my_agent" := {| profile_name := "Michael" |}]>
    (<["person_alice" := {| profile_name := "Alice" |}]> ∅).

Definition started : AppState :=
  startConversation (Response true true)
    (onopen (connectWebSocket (loadProfiles loaded_profiles initialState))).

Definition michael_says_hi : WsData :=
  {| ws_type := "conversation_update";
     ws_data := {| conversation_id := "c1"; upd_speaker := "Michael";
                   upd_message := "hi"; turn_number := 1; is_finished := false |} |}.

Definition alice_says_hi : WsData :=
  {| ws_type := "conversation_update";
     ws_data := {| conversation_id := "c1"; upd_speaker := "Alice";
                   upd_message := "hi"; turn_number := 1; is_finished := false |} |}.

(** A parser that reads one payload and rejects every other, to run the
    listeners on. *)
Definition sample_parse (payload : string) : option WsData :=
  if String.eqb payload "alice says hi" then Some alice_says_hi else None.

(** A connected, idle view whose profiles have been loaded. *)
Definition ready_to_start : AppState :=
  {| connectionStatus := connected;
     availableProfiles := <["person_alice" := {| profile_name := "Alice" |}]> ∅;
     isRunning := false; messages := []; agents := [userAgent] |}.

(** The two messages of the counterexample: Alice speaks at 0 ms and again
    at 3000 ms. *)
Definition alice_first : ConversationMessage :=
  {| msg_id := "c1_1"; msg_speaker := "Alice"; msg_message := "hello";
     msg_timestamp := 0; msg_turnNumber := 1 |}.

Definition alice_second : ConversationMessage :=
  {| msg_id := "c1_3"; msg_speaker := "Alice"; msg_message := "are you there?";
     msg_timestamp := 3; msg_turnNumber := 3 |}.

End Scenarios.

Export Scenarios.

(** ** Decorations of the live view ([part_003], lines 34-47, 59-64, 76,
    87, 165-171 and 185-201) *)

Module Decor.

Open Scope string_scope.

(** [Sparkle]: [ref.current.scale.setScalar(1 + Math.sin(t * 6) * 0.15 + 0.15)] *)
Definition Sparkle_scale (t : R) : R := 1 + sin (t * 6) * 0.15 + 0.15.

(** [AgentAvatar]: [const tilt = Math.sin(clock.getElapsedTime() * 1.3) * 0.06] *)
Definition avatar_tilt (t : R) : R := sin (t * 1.3) * 0.06.

(** [opacity={isActive ? 1.0 : 0.6}] *)
Definition avatar_opacity (isActive : bool) : R := if isActive then 1.0 else 0.6.

(** The label under the body: [{name || id}]; [None] is an absent [name]. *)
Definition avatar_label (id : string) (name : option string) : string :=
  match name with
  | Some n => if truthy n then n else id
  | None => id
  end.

(** [Ring]: [for (let i = 0; i < 64; i++) arr.push(polarToVec3(r, (i / 64) * TAU, y))],
    with [todo] iterations left. *)
Fixpoint Ring_loop (r y : R) (todo i : nat) (arr : list Vec3) : list Vec3 :=
  match todo with
  | O => arr
  | S todo' =>
      Ring_loop r y todo' (S i) (arr ++ [polarToVec3 r (INR i / 64 * TAU) y])%list
  end.

Definition Ring_points (r y : R) : list Vec3 := Ring_loop r y 64 0 [].

(** The text carried by an orb:
    [text.length > 100 ? text.substring(0, 100) + '...' : text] *)
Definition orbText (text : string) : string :=
  if (100 <? String.length text)%nat
  then substring 0 100 text ++ "..."
  else text.

(** [{text && (...)}]: no label for an absent or empty text. *)
Definition orbLabel (text : option string) : option string :=
  match text with
  | Some s => if truthy s then Some (orbText s) else None
  | None => None
  end.

End Decor.

Export Decor.

(** ** The orbs of the live [Scene] ([part_003], lines 263 and 312-336) *)

Module LiveOrbs.

(** [const positions = useCircleLayout(agents, 6)] *)
Definition Scene_positions (agents : list Agent) : gmap string Vec3 :=
  useCircleLayout (map agent_id agents) 6.

(** [agents.find((a) => a.name === message.speaker)] *)
Definition speakerAgent (agents : list Agent) (message : ConversationMessage)
  : option Agent :=
  List.find (fun a => String.eqb (agent_name a) (msg_speaker message)) agents.

(** [agents.filter((a) => a.name !== message.speaker && a.isActive)] *)
Definition otherAgents (agents : list Agent) (message : ConversationMessage)
  : list Agent :=
  List.filter (fun a => negb (String.eqb (agent_name a) (msg_speaker message))
                        && agent_isActive a) agents.

(** The body of [messages.map((message) => ...)]: [None] is [return null],
    otherwise what [MessageOrb] renders with [duration={4.0}] and the default
    height. *)
Definition Scene_orb (positions : gmap string Vec3) (agents : list Agent)
    (currentTime : R) (message : ConversationMessage) : option Vec3 :=
  match speakerAgent agents message with
  | None => None
  | Some speaker =>
      match otherAgents agents message with
      | [] => None
      | target :: _ =>
          match positions !! agent_id speaker, positions !! agent_id target with
          | Some fromPos, Some toPos =>
              MessageOrb fromPos toPos (msg_timestamp message) 4 1.5 currentTime
          | _, _ => None
          end
      end
  end.

(** The orbs of a frame. *)
Definition Scene_orbs (agents : list Agent) (messages : list ConversationMessage)
    (currentTime : R) : list (option Vec3) :=
  map (Scene_orb (Scene_positions agents) agents currentTime) messages.

(** The scene after the frames whose deltas are given, oldest first. *)
Definition Scene_frames (deltas : list R) (s : SceneState) : SceneState :=
  fold_left (fun s delta => onFrame delta s) deltas s.

(** Total of a list of frame deltas. *)
Definition total (deltas : list R) : R := fold_right Rplus 0 deltas.

End LiveOrbs.

Export LiveOrbs.

(** ** The orbs of the replay [Scene] (last document of
    [frontend/src/components/ChatInterface.tsx]) *)

Module ReplayOrbs.

(** An entry of [interactions]. *)
Record Interaction : Type := mkInteraction {
  int_from : string;
  int_to : string;
  int_t : R;
  int_text : string;
  int_kind : string
}.

(** The body of [interactions.map((m, i) => ...)]: [MessageOrb] with its
    default [duration = 2.0] and [height = 1.5]. *)
Definition Replay_orb (positions : gmap string Vec3) (time : R) (m : Interaction)
  : option Vec3 :=
  match positions !! int_from m, positions !! int_to m with
  | Some fromPos, Some toPos => MessageOrb fromPos toPos (int_t m) 2 1.5 time
  | _, _ => None
  end.

(** [durationProp ?? Math.max(6, Math.max(...interactions.map(m => m.t)) + 3)] *)
Definition Replay_duration (durationProp : option R) (interactions : list Interaction)
  : R :=
  sceneDuration durationProp (map int_t interactions).

(** Two entries of the [interactions] of the replay's [AgentAnimation]. *)
Definition evt_0 : Interaction :=
  {| int_from := "agent_alice"; int_to := "agent_bob"; int_t := 0.5;
     int_text := "Goal: warm intro + pilot scope"; int_kind := "chat" |}.

Definition evt_5 : Interaction :=
  {| int_from := "agent_bob"; int_to := "nova_lead"; int_t := 8.2;
     int_text := "Final message w/ constraints"; int_kind := "chat" |}.

End ReplayOrbs.

Export ReplayOrbs.

(** ** The interpolation helpers over binary64
    ([part_003], lines 13-20 and 155-156)

    The same functions as in [Geometry] and [Orb], with the arithmetic of
    the doubles the code computes with (round to nearest, ties to even). *)

Module Binary64.

Import PrimFloat FloatOps SpecFloat.
Local Open Scope float_scope.

Definition Vec3 : Type := (float * float * float)%type.

Definition vx (v : Vec3) : float := fst (fst v).
Definition vy (v : Vec3) : float := snd (fst v).
Definition vz (v : Vec3) : float := snd v.

(** [lerp(a, b, t)] *)
Definition lerp (a b t : float) : float := a + (b - a) * t.

(** [vec3Lerp(a, b, t)] *)
Definition vec3Lerp (a b : Vec3) (t : float) : Vec3 :=
  (lerp (vx a) (vx b) t, lerp (vy a) (vy b) t, lerp (vz a) (vz b) t).

(** [bezier3(a, b, c, d, t)] *)
Definition bezier3 (a b c d : Vec3) (t : float) : Vec3 :=
  let ab := vec3Lerp a b t in
  let bc := vec3Lerp b c t in
  let cd := vec3Lerp c d t in
  let abbc := vec3Lerp ab bc t in
  let bccd := vec3Lerp bc cd t in
  vec3Lerp abbc bccd t.

(** The two inner control points built by [MessageOrb]. *)
Definition mid1 (fromPos toPos : Vec3) (height : float) : Vec3 :=
  ((vx fromPos * 2 + vx toPos) / 3, height, (vz fromPos * 2 + vz toPos) / 3).

Definition mid2 (fromPos toPos : Vec3) (height : float) : Vec3 :=
  ((vx fromPos + vx toPos * 2) / 3, height, (vz fromPos + vz toPos * 2) / 3).

(** A double that is a number: neither an infinity nor NaN. *)
Definition finite (x : float) : bool :=
  match Prim2SF x with
  | S754_zero _ | S754_finite _ _ _ => true
  | _ => false
  end.

(** The double [-0]. *)
Definition negative_zero (x : float) : bool :=
  match Prim2SF x with
  | S754_zero true => true
  | _ => false
  end.

(** The step from [a] to [b] does not overflow, and [a] is not [-0]. *)
Definition steady (a b : float) : Prop :=
  finite (b - a) = true /\ negative_zero a = false.

Definition steady3 (a b : Vec3) : Prop :=
  steady (vx a) (vx b) /\ steady (vy a) (vy b) /\ steady (vz a) (vz b).

(** The doubles nearest to 0.9 and 0.3, and the double just below the
    latter, which JavaScript prints as 0.29999999999999993. *)
Definition nine_tenths : float := 0x1.ccccccccccccdp-1.
Definition three_tenths : float := 0x1.3333333333333p-2.
Definition below_three_tenths : float := 0x1.3333333333332p-2.

(** Two positions of the replay view, whose roster has four agents on the
    ring of radius 6: those of index 1 and 2, as [polarToVec3] computes
    them, [(3.6739403974420594e-16, 0, 6)] and
    [(-6, 0, 7.347880794884119e-16)]; and the default arc height. *)
Definition ring_4_1 : Vec3 := (0x1.a79394c9e8a0ap-52, 0, 6).
Definition ring_4_2 : Vec3 := (-6, 0, 0x1.a79394c9e8a0ap-51).
Definition arc_height : float := 1.5.

End Binary64.

(** ** Reading a plain object by a computed key ([part_003], line 308) *)

Module PlainObject.

Open Scope string_scope.

(** The properties every plain object inherits from [Object.prototype]
    (ECMA-262, with the accessors of its annex B that browsers implement).
    Each holds a function, and [__proto__] reads as the prototype object:
    values that are truthy and are not strings. *)
Definition Object_prototype : list string :=
  ["constructor"; "hasOwnProperty"; "isPrototypeOf"; "propertyIsEnumerable";
   "toLocaleString"; "toString"; "valueOf"; "__proto__";
   "__defineGetter__"; "__defineSetter__"; "__lookupGetter__"; "__lookupSetter__"].

Definition inherited (name : string) : bool :=
  existsb (String.eqb name) Object_prototype.

(** What [currentMessage] can be when it is not [null]: a message text, or
    a value found on the prototype. *)
Inductive Shown : Type :=
| Text (text : string)
| Inherited.

(** [agentMessages[agent.name] || null]: an own property shadows the
    prototype, and an own empty text is falsy; without an own property the
    read falls through to [Object.prototype]. *)
Definition currentMessage (agentMessages : gmap string string) (name : string)
  : option Shown :=
  match agentMessages !! name with
  | Some text => if truthy text then Some (Text text) else None
  | None => if inherited name then Some Inherited else None
  end.

(** The [currentMessage] handed to the avatar of the agent named [name] at
    instant [now_ms] of a session; the avatar draws a bubble exactly when it
    is not [null] ([currentMessage && ...]). *)
Definition avatarMessageAt (arrivals : list (Z * list ConversationMessage))
    (now_ms : Z) (name : string) : option Shown :=
  currentMessage (agentMessages (advance now_ms (replay arrivals))) name.

End PlainObject.

Export PlainObject.

(** * Part II: results *)

(** The boolean comparison agrees with the order of the reals. *)
Lemma Rltb_true x y : Rltb x y = true <-> x < y.
Proof. unfold Rltb. destruct (Rlt_dec x y); split; intros; try lra; discriminate. Qed.

Lemma Rltb_false x y : Rltb x y = false <-> y <= x.
Proof. unfold Rltb. destruct (Rlt_dec x y); split; intros; try lra; discriminate. Qed.

(** ** Results on the geometry *)

Lemma vec3_eq (a b : Vec3) :
  vx a = vx b -> vy a = vy b -> vz a = vz b -> a = b.
Proof.
  destruct a as [[ax ay] az], b as [[bx by'] bz]; unfold vx, vy, vz; simpl.
  intros -> -> ->. reflexivity.
Qed.

(** Equalities of points are checked coordinate by coordinate. *)
Ltac by_coordinates :=
  apply vec3_eq;
  unfold bezier3, cubicBezier_spec, mid1, mid2, mid1_spec, mid2_spec, raise,
    vec3Lerp, bernstein3, lerp, vx, vy, vz;
  simpl.

Lemma lerp_0 a b : lerp a b 0 = a.
Proof. unfold lerp. ring. Qed.

Lemma lerp_1 a b : lerp a b 1 = b.
Proof. unfold lerp. ring. Qed.

Lemma vec3Lerp_0 a b : vec3Lerp a b 0 = a.
Proof. by_coordinates; ring. Qed.

Lemma vec3Lerp_1 a b : vec3Lerp a b 1 = b.
Proof. by_coordinates; ring. Qed.

Lemma bezier3_start a b c d : bezier3 a b c d 0 = a.
Proof. unfold bezier3. now rewrite !vec3Lerp_0. Qed.

Lemma bezier3_end a b c d : bezier3 a b c d 1 = d.
Proof. unfold bezier3. now rewrite !vec3Lerp_1. Qed.

(** The nested interpolation is the cubic Bernstein polynomial. *)
Lemma bezier3_bernstein a b c d t : bezier3 a b c d t = cubicBezier_spec a b c d t.
Proof. by_coordinates; ring. Qed.

Lemma mid1_is_spec f t h : mid1 f t h = mid1_spec f t h.
Proof. by_coordinates; lra. Qed.

Lemma mid2_is_spec f t h : mid2 f t h = mid2_spec f t h.
Proof. by_coordinates; lra. Qed.

Lemma MessageOrb_hidden f t t0 d h now :
  tNorm t0 d now < 0 \/ 1 < tNorm t0 d now -> MessageOrb f t t0 d h now = None.
Proof.
  unfold MessageOrb, tNorm. intros [H | H].
  - apply Rltb_true in H. now rewrite H.
  - apply Rltb_true in H. rewrite H. now rewrite orb_true_r.
Qed.

Lemma MessageOrb_shown f t t0 d h now :
  0 <= tNorm t0 d now <= 1 ->
  MessageOrb f t t0 d h now
  = Some (bezier3 f (mid1 f t h) (mid2 f t h) t (tNorm t0 d now)).
Proof.
  unfold MessageOrb, tNorm. intros [H0 H1].
  apply Rltb_false in H0. apply Rltb_false in H1. now rewrite H0, H1.
Qed.

Lemma tNorm_times t0 d now : d <> 0 -> tNorm t0 d now * d = now - t0.
Proof. intros Hd. unfold tNorm. now field. Qed.

Lemma tNorm_sign t0 d now : 0 < d ->
  (now < t0 <-> tNorm t0 d now < 0) /\ (t0 + d < now <-> 1 < tNorm t0 d now).
Proof.
  intros Hd. pose proof (tNorm_times t0 d now ltac:(lra)) as E.
  split; split; intros H; nra.
Qed.

Lemma tNorm_half t0 d : d <> 0 -> tNorm t0 d (t0 + d / 2) = 1 / 2.
Proof. intros Hd. unfold tNorm. field. exact Hd. Qed.

(** C1. A message emitted at [t0] with a positive transit duration [d] shows
    its marker exactly when the normalised progress [(now - t0) / d] lies in
    [[0, 1]]; the marker is absent before [t0] and after [t0 + d]; when shown
    it sits at the cubic Bezier point of that progress over the sender, the
    two raised one-third and two-third points and the receiver; and at
    [t0 + d / 2] it sits at the Bezier point of progress one half. *)
Theorem C1_message_orb_visibility_and_position
  (fromPos toPos : Vec3) (t0 d height now : R) :
  0 < d ->
  (MessageOrb fromPos toPos t0 d height now <> None
     <-> 0 <= tNorm t0 d now <= 1)
  /\ (now < t0 -> MessageOrb fromPos toPos t0 d height now = None)
  /\ (t0 + d < now -> MessageOrb fromPos toPos t0 d height now = None)
  /\ (0 <= tNorm t0 d now <= 1 ->
      MessageOrb fromPos toPos t0 d height now
      = Some (cubicBezier_spec fromPos (mid1_spec fromPos toPos height)
                (mid2_spec fromPos toPos height) toPos (tNorm t0 d now)))
  /\ MessageOrb fromPos toPos t0 d height (t0 + d / 2)
     = Some (cubicBezier_spec fromPos (mid1_spec fromPos toPos height)
               (mid2_spec fromPos toPos height) toPos (1 / 2)).
Proof.
  intros Hd. destruct (tNorm_sign t0 d now Hd) as [Hlo Hhi].
  assert (Hshown : forall n, 0 <= tNorm t0 d n <= 1 ->
            MessageOrb fromPos toPos t0 d height n
            = Some (cubicBezier_spec fromPos (mid1_spec fromPos toPos height)
                      (mid2_spec fromPos toPos height) toPos (tNorm t0 d n))).
  { intros n Hn. rewrite MessageOrb_shown by exact Hn.
    now rewrite bezier3_bernstein, mid1_is_spec, mid2_is_spec. }
  split; [split|split; [|split; [|split]]].
  - intros Hsome.
    destruct (Rlt_dec (tNorm t0 d now) 0) as [Hn | Hn];
      [exfalso; apply Hsome, MessageOrb_hidden; now left|].
    destruct (Rlt_dec 1 (tNorm t0 d now)) as [Hm | Hm];
      [exfalso; apply Hsome, MessageOrb_hidden; now right|].
    lra.
  - intros Hin. rewrite Hshown by exact Hin. discriminate.
  - intros H. apply MessageOrb_hidden. left. now apply Hlo.
  - intros H. apply MessageOrb_hidden. right. now apply Hhi.
  - exact (Hshown now).
  - rewrite Hshown; rewrite tNorm_half by lra; [reflexivity | lra].
Qed.

Lemma C1_message_orb_witness :
  MessageOrb (6, 0, 0) (-6, 0, 0) 10 4 1.5 9 = None
  /\ MessageOrb (6, 0, 0) (-6, 0, 0) 10 4 1.5 15 = None
  /\ MessageOrb (6, 0, 0) (-6, 0, 0) 10 4 1.5 (10 + 4 / 2)
     = Some (cubicBezier_spec (6, 0, 0) (mid1_spec (6, 0, 0) (-6, 0, 0) 1.5)
               (mid2_spec (6, 0, 0) (-6, 0, 0) 1.5) (-6, 0, 0) (1 / 2)).
Proof.
  assert (Hd : 0 < 4) by lra.
  destruct (C1_message_orb_visibility_and_position
              (6, 0, 0) (-6, 0, 0) 10 4 1.5 9 Hd) as [_ [Hbefore _]].
  destruct (C1_message_orb_visibility_and_position
              (6, 0, 0) (-6, 0, 0) 10 4 1.5 15 Hd) as [_ [_ [Hafter [_ Hhalf]]]].
  split; [apply Hbefore; lra | split; [apply Hafter; lra | exact Hhalf]].
Defined.

(** *** The end points in binary64 *)

(** At [t = 0] a step that does not overflow contributes a zero, and adding
    a zero to a double other than [-0] returns it. *)
Lemma Binary64_lerp_start (a b : PrimFloat.float) :
  Binary64.steady a b -> Binary64.lerp a b PrimFloat.zero = a.
Proof.
  unfold Binary64.steady, Binary64.finite, Binary64.negative_zero, Binary64.lerp.
  intros [Hfin Hneg]. apply FloatAxioms.Prim2SF_inj.
  rewrite FloatAxioms.add_spec, FloatAxioms.mul_spec.
  change (FloatOps.Prim2SF PrimFloat.zero) with (SpecFloat.S754_zero false).
  destruct (FloatOps.Prim2SF (PrimFloat.sub b a)) as [s | s | | s m e];
    try discriminate Hfin;
    destruct (FloatOps.Prim2SF a) as [[|] | sa | | sa ma ea];
    try discriminate Hneg; try reflexivity; destruct s; reflexivity.
Qed.

Lemma Binary64_vec3Lerp_start (a b : Binary64.Vec3) :
  Binary64.steady3 a b -> Binary64.vec3Lerp a b PrimFloat.zero = a.
Proof.
  destruct a as [[ax ay] az]. intros [Hx [Hy Hz]].
  unfold Binary64.vec3Lerp, Binary64.vx, Binary64.vy, Binary64.vz in *; simpl in *.
  now rewrite !Binary64_lerp_start.
Qed.

Lemma Binary64_bezier3_start (a b c d : Binary64.Vec3) :
  Binary64.steady3 a b -> Binary64.steady3 b c -> Binary64.steady3 c d ->
  Binary64.bezier3 a b c d PrimFloat.zero = a.
Proof.
  intros Hab Hbc Hcd. unfold Binary64.bezier3.
  rewrite (Binary64_vec3Lerp_start a b Hab), (Binary64_vec3Lerp_start b c Hbc),
    (Binary64_vec3Lerp_start c d Hcd).
  rewrite (Binary64_vec3Lerp_start a b Hab), (Binary64_vec3Lerp_start b c Hbc).
  apply (Binary64_vec3Lerp_start a b Hab).
Qed.

(** C10, refuted as stated, on the doubles the code computes with: with the
    first three control points at 0.9 and the last at 0.3 in [x] and [z],
    [bezier3] at [t = 1] returns 0.29999999999999993 there, not 0.3; and the
    path of an orb between two positions of the replay view's ring ends
    beside the receiver's position. *)
Lemma C10_binary64_end_point_counterexample :
  Binary64.bezier3
    (Binary64.nine_tenths, PrimFloat.zero, Binary64.nine_tenths)
    (Binary64.nine_tenths, PrimFloat.zero, Binary64.nine_tenths)
    (Binary64.nine_tenths, PrimFloat.zero, Binary64.nine_tenths)
    (Binary64.three_tenths, PrimFloat.zero, Binary64.three_tenths) PrimFloat.one
  = (Binary64.below_three_tenths, PrimFloat.zero, Binary64.below_three_tenths)
  /\ Binary64.below_three_tenths <> Binary64.three_tenths
  /\ Binary64.bezier3 Binary64.ring_4_1
       (Binary64.mid1 Binary64.ring_4_1 Binary64.ring_4_2 Binary64.arc_height)
       (Binary64.mid2 Binary64.ring_4_1 Binary64.ring_4_2 Binary64.arc_height)
       Binary64.ring_4_2 PrimFloat.one
     <> Binary64.ring_4_2.
Proof.
  split; [vm_compute; reflexivity | split].
  - intros H. apply (f_equal FloatOps.Prim2SF) in H. vm_compute in H. discriminate H.
  - intros H. apply (f_equal (fun v => FloatOps.Prim2SF (Binary64.vz v))) in H.
    vm_compute in H. discriminate H.
Qed.

(** C10, as the code has it.  In exact arithmetic the curve starts at its first control
    point and ends at its last: [bezier3 a b c d 0 = a] and
    [bezier3 a b c d 1 = d]; hence, whatever the two positions and the arc
    height, the path of an orb begins at the sender's position and ends at
    the receiver's, and the orb is there at its emission time and one
    (positive) duration later.  In binary64, as the code computes, the start
    is exact: [bezier3 a b c d 0] is [a] whenever, in each coordinate, the
    steps from [a] to [b], from [b] to [c] and from [c] to [d] do not
    overflow and [a], [b], [c] are not [-0]; so is the start of an orb's
    path.  Nothing is said of the end point in binary64. *)
Theorem C10_bezier3_endpoints_exact_and_binary64_start :
  (forall a b c d : Vec3, bezier3 a b c d 0 = a /\ bezier3 a b c d 1 = d)
  /\ (forall (fromPos toPos : Vec3) (height : R),
        bezier3 fromPos (mid1 fromPos toPos height)
          (mid2 fromPos toPos height) toPos 0 = fromPos
        /\ bezier3 fromPos (mid1 fromPos toPos height)
             (mid2 fromPos toPos height) toPos 1 = toPos)
  /\ (forall (fromPos toPos : Vec3) (t0 d height : R),
        0 < d ->
        MessageOrb fromPos toPos t0 d height t0 = Some fromPos
        /\ MessageOrb fromPos toPos t0 d height (t0 + d) = Some toPos)
  /\ (forall a b c d : Binary64.Vec3,
        Binary64.steady3 a b -> Binary64.steady3 b c -> Binary64.steady3 c d ->
        Binary64.bezier3 a b c d PrimFloat.zero = a)
  /\ (forall (fromPos toPos : Binary64.Vec3) (height : PrimFloat.float),
        Binary64.steady3 fromPos (Binary64.mid1 fromPos toPos height) ->
        Binary64.steady3 (Binary64.mid1 fromPos toPos height)
          (Binary64.mid2 fromPos toPos height) ->
        Binary64.steady3 (Binary64.mid2 fromPos toPos height) toPos ->
        Binary64.bezier3 fromPos (Binary64.mid1 fromPos toPos height)
          (Binary64.mid2 fromPos toPos height) toPos PrimFloat.zero = fromPos).
Proof.
  split; [|split; [|split; [|split]]].
  - intros a b c d. split; [apply bezier3_start | apply bezier3_end].
  - intros f t h. split; [apply bezier3_start | apply bezier3_end].
  - intros f t t0 d h Hd.
    assert (H0 : tNorm t0 d t0 = 0) by (unfold tNorm; field; lra).
    assert (H1 : tNorm t0 d (t0 + d) = 1) by (unfold tNorm; field; lra).
    split.
    + rewrite MessageOrb_shown by (rewrite H0; lra).
      now rewrite H0, bezier3_start.
    + rewrite MessageOrb_shown by (rewrite H1; lra).
      now rewrite H1, bezier3_end.
  - exact Binary64_bezier3_start.
  - intros f t h. apply Binary64_bezier3_start.
Qed.

Lemma C10_bezier3_endpoints_start_witness :
  (MessageOrb (6, 0, 0) (-6, 0, 0) 10 4 1.5 10 = Some (6, 0, 0)
   /\ MessageOrb (6, 0, 0) (-6, 0, 0) 10 4 1.5 (10 + 4) = Some (-6, 0, 0))
  /\ Binary64.bezier3 Binary64.ring_4_1
       (Binary64.mid1 Binary64.ring_4_1 Binary64.ring_4_2 Binary64.arc_height)
       (Binary64.mid2 Binary64.ring_4_1 Binary64.ring_4_2 Binary64.arc_height)
       Binary64.ring_4_2 PrimFloat.zero
     = Binary64.ring_4_1.
Proof.
  destruct C10_bezier3_endpoints_exact_and_binary64_start
    as [_ [_ [Horb [_ Hstart]]]].
  split.
  - apply (Horb (6, 0, 0) (-6, 0, 0) 10 4 1.5). lra.
  - apply (Hstart Binary64.ring_4_1 Binary64.ring_4_2 Binary64.arc_height);
      repeat split; vm_compute; reflexivity.
Defined.

(** ** Results on the circular layout *)

Section ForEach.

Variables (r : R) (n : nat).

(** The loop touches the entries of the agents it visits and no other. *)
Lemma forEach_set_notin (agents : list string) :
  forall i (m : gmap string Vec3) id,
  id ∉ agents -> forEach_set r n i agents m !! id = m !! id.
Proof.
  induction agents as [|a rest IH]; intros i m id Hid; simpl; [reflexivity|].
  apply not_elem_of_cons in Hid as [Hne Hrest].
  rewrite IH by exact Hrest. now apply lookup_insert_ne.
Qed.

(** With distinct identifiers, the agent visited at step [k] keeps the
    point of index [i + k]. *)
Lemma forEach_set_lookup (agents : list string) :
  forall i (m : gmap string Vec3) k id,
  NoDup agents -> agents !! k = Some id ->
  forEach_set r n i agents m !! id
  = Some (polarToVec3 r (INR (i + k) / INR n * TAU) 0).
Proof.
  induction agents as [|a rest IH]; intros i m k id Hnd Hk; [discriminate|].
  apply NoDup_cons in Hnd as [Ha Hnd]. destruct k as [|k]; simpl in *.
  - injection Hk as ->. rewrite forEach_set_notin by exact Ha.
    rewrite lookup_insert_eq. now rewrite Nat.add_0_r.
  - rewrite (IH (S i) _ k id Hnd Hk). now rewrite Nat.add_succ_r.
Qed.

Lemma forEach_set_dom (agents : list string) :
  forall i (m : gmap string Vec3) id,
  is_Some (forEach_set r n i agents m !! id) <-> id ∈ agents \/ is_Some (m !! id).
Proof.
  induction agents as [|a rest IH]; intros i m id; simpl.
  - split; [now right | intros [H | H]; [inversion H | exact H]].
  - rewrite IH, elem_of_cons. destruct (decide (a = id)) as [-> | Hne].
    + rewrite lookup_insert_eq. split; [intros _; now left; left |].
      intros _. right. eauto.
    + rewrite lookup_insert_ne by exact Hne. split.
      * intros [H | H]; [left; now right | now right].
      * intros [[H | H] | H]; [congruence | now left | now right].
Qed.

End ForEach.

Lemma polarToVec3_ring_point r n i :
  polarToVec3 r (INR i / INR n * TAU) 0 = ring_point r n i.
Proof.
  unfold polarToVec3, ring_point, TAU.
  replace (INR i / INR n * (PI * 2)) with (2 * PI * INR i / INR n)
    by (unfold Rdiv; ring).
  f_equal; [f_equal|]; ring.
Qed.

(** Two different angles of one turn give two different points of the unit
    circle. *)
Lemma unit_circle_inj (x y : R) :
  0 <= x -> x < y -> y < 2 * PI -> cos x = cos y -> sin x = sin y -> False.
Proof.
  intros Hx Hxy Hy Hc Hs.
  assert (Hsin : sin (y - x) = 0) by (rewrite sin_minus, Hc, Hs; ring).
  assert (Hcos : cos (y - x) = 1).
  { rewrite cos_minus, <- Hc, <- Hs. pose proof (sin2_cos2 x) as H.
    unfold Rsqr in H. lra. }
  destruct (sin_eq_O_2PI_0 (y - x)) as [H | [H | H]]; try lra.
  rewrite H, cos_PI in Hcos. lra.
Qed.

Lemma ring_angle_bounds (N i : nat) : (i < N)%nat ->
  0 <= 2 * PI * INR i / INR N < 2 * PI.
Proof.
  intros Hi. pose proof PI_RGT_0 as Hpi.
  assert (HN : 0 < INR N) by (apply lt_0_INR; lia).
  assert (Hi0 : 0 <= INR i) by apply pos_INR.
  assert (HiN : INR i < INR N) by now apply lt_INR.
  split.
  - apply Rmult_le_pos; [nra | left; now apply Rinv_0_lt_compat].
  - apply Rmult_lt_reg_r with (INR N); [exact HN|].
    unfold Rdiv. rewrite Rmult_assoc, Rinv_l by lra. nra.
Qed.

Lemma ring_angle_mono (N i j : nat) : (i < j)%nat -> (0 < N)%nat ->
  2 * PI * INR i / INR N < 2 * PI * INR j / INR N.
Proof.
  intros Hij HN0. pose proof PI_RGT_0 as Hpi.
  assert (HN : 0 < INR N) by (apply lt_0_INR; lia).
  assert (Hlt : INR i < INR j) by now apply lt_INR.
  apply Rmult_lt_compat_r; [now apply Rinv_0_lt_compat | nra].
Qed.

Lemma ring_point_inj (r : R) (N i j : nat) :
  r <> 0 -> (i < N)%nat -> (j < N)%nat -> ring_point r N i = ring_point r N j -> i = j.
Proof.
  intros Hr Hi Hj Heq. unfold ring_point in Heq.
  injection Heq as Hc Hs.
  apply Rmult_eq_reg_l in Hc; [|exact Hr]. apply Rmult_eq_reg_l in Hs; [|exact Hr].
  destruct (Nat.lt_trichotomy i j) as [Hlt | [-> | Hlt]]; [|reflexivity|]; exfalso.
  - apply (unit_circle_inj (2 * PI * INR i / INR N) (2 * PI * INR j / INR N));
      try assumption.
    + apply (ring_angle_bounds N i Hi).
    + apply ring_angle_mono; lia.
    + apply (ring_angle_bounds N j Hj).
  - apply (unit_circle_inj (2 * PI * INR j / INR N) (2 * PI * INR i / INR N));
      try (symmetry; assumption).
    + apply (ring_angle_bounds N j Hj).
    + apply ring_angle_mono; lia.
    + apply (ring_angle_bounds N i Hi).
Qed.

Lemma ring_point_ground r N i : vy (ring_point r N i) = 0.
Proof. reflexivity. Qed.

Lemma ring_point_norm r N i : 0 <= r -> norm3 (ring_point r N i) = r.
Proof.
  intros Hr. unfold norm3, ring_point, vx, vy, vz; simpl.
  set (a := 2 * PI * INR i / INR N). pose proof (sin2_cos2 a) as H.
  unfold Rsqr in H.
  replace (r * cos a * (r * cos a) + 0 * 0 + r * sin a * (r * sin a))
    with (r * r) by nra.
  now apply sqrt_square.
Qed.

(** C2. For a roster of [N >= 1] distinct identifiers and a positive ring
    radius [r], the layout sends the agent at index [i] to
    [(r cos (2 pi i / N), 0, r sin (2 pi i / N))]; the [N] points are pairwise
    distinct, on the ground plane and at distance [r] from the origin; the
    layout holds a position for exactly the agents of the roster; and a roster
    of one agent places it at angle 0, that is at [(r, 0, 0)]. *)
Theorem C2_circle_layout (agents : list string) (r : R) :
  NoDup agents -> 0 < r -> (1 <= length agents)%nat ->
  let N := length agents in
  let layout := useCircleLayout agents r in
  (forall i id, agents !! i = Some id -> layout !! id = Some (ring_point r N i))
  /\ (forall i j idi idj pi pj,
        agents !! i = Some idi -> agents !! j = Some idj -> i <> j ->
        layout !! idi = Some pi -> layout !! idj = Some pj -> pi <> pj)
  /\ (forall id p, layout !! id = Some p -> vy p = 0 /\ norm3 p = r)
  /\ (forall id, id ∈ agents <-> is_Some (layout !! id))
  /\ (forall id, useCircleLayout [id] r !! id = Some (r, 0, 0))
  /\ 0 < INR (Nat.max (length agents) 1).
Proof.
  intros Hnd Hr HN N layout.
  assert (Hmax : Nat.max (length agents) 1 = N) by (unfold N; lia).
  assert (Hat : forall i id, agents !! i = Some id ->
                  layout !! id = Some (ring_point r N i)).
  { intros i id Hi. unfold layout, useCircleLayout. rewrite Hmax.
    rewrite (forEach_set_lookup r N agents 0 ∅ i id Hnd Hi).
    now rewrite polarToVec3_ring_point. }
  assert (Hdom : forall id, id ∈ agents <-> is_Some (layout !! id)).
  { intros id. unfold layout, useCircleLayout. rewrite forEach_set_dom.
    rewrite lookup_empty. split; [now left | intros [H | H]; [exact H|]].
    now destruct H. }
  assert (Hpoint : forall id p, layout !! id = Some p ->
                     exists i, (i < N)%nat /\ p = ring_point r N i).
  { intros id p Hp. pose proof (proj2 (Hdom id) (mk_is_Some _ _ Hp)) as Hin.
    apply list_elem_of_lookup in Hin as [i Hi]. exists i.
    split; [exact (lookup_lt_Some _ _ _ Hi)|].
    rewrite (Hat i id Hi) in Hp. now apply (inj Some) in Hp. }
  split; [exact Hat|]. split; [|split; [|split; [exact Hdom|split]]].
  - intros i j idi idj pi pj Hi Hj Hij Hpi Hpj Heq. subst pj.
    rewrite (Hat i idi Hi) in Hpi. rewrite (Hat j idj Hj) in Hpj.
    apply Hij. apply (ring_point_inj r N); [lra | | | congruence].
    + exact (lookup_lt_Some _ _ _ Hi).
    + exact (lookup_lt_Some _ _ _ Hj).
  - intros id p Hp. destruct (Hpoint id p Hp) as [i [_ ->]]. split.
    + apply ring_point_ground.
    + apply ring_point_norm. lra.
  - intros id. unfold useCircleLayout; simpl. rewrite lookup_insert_eq.
    unfold polarToVec3. replace (0 / 1 * TAU) with 0 by (unfold Rdiv; ring).
    rewrite cos_0, sin_0. do 2 f_equal; [f_equal|]; ring.
  - apply lt_0_INR. lia.
Qed.

Lemma C2_circle_layout_witness :
  useCircleLayout ["Alice"; "Bob"]%string 6 !! "Bob"%string
  = Some (ring_point 6 2 1).
Proof.
  refine (proj1 (C2_circle_layout ["Alice"; "Bob"]%string 6 _ _ _) 1%nat "Bob"%string _).
  - apply NoDup_cons. split; [|apply NoDup_singleton].
    intros H. apply list_elem_of_singleton in H. discriminate.
  - lra.
  - simpl. lia.
  - reflexivity.
Defined.

(** ** Results on the speech bubble *)

Lemma messageLength_Some s : messageLength (Some s) = String.length s.
Proof.
  unfold messageLength, truthy. destruct (String.eqb_spec s "") as [-> | _]; reflexivity.
Qed.

Lemma substring_prefix (n : nat) : forall s : string,
  (n <= String.length s)%nat ->
  String.length (substring 0 n s) = n
  /\ exists rest, s = (substring 0 n s ++ rest)%string.
Proof.
  induction n as [|n IH]; intros s Hn.
  - destruct s; simpl; split; try reflexivity; eexists; reflexivity.
  - destruct s as [|c s]; simpl in *; [lia|].
    destruct (IH s ltac:(lia)) as [Hlen [rest Hrest]]. split; [now rewrite Hlen|].
    exists rest.
    change (String c s = String c (String.append (substring 0 n s) rest)).
    f_equal. exact Hrest.
Qed.

(** C7. For a message text of any length the bubble is
    [min (0.06 * length + 1.6, 5.8)] wide, hence never wider than 5.8; a text
    of more than 220 characters is shown as its first 220 characters followed
    by the ellipsis marker ["..."], and a text of at most 220 characters is
    shown unchanged; the bubble drawn for a text that is not empty has that
    width and holds that text. *)
Theorem C7_bubble_width_and_truncation (text : string) :
  bubbleWidth (Some text) = bubbleWidth_spec (String.length text)
  /\ bubbleWidth (Some text) <= 5.8
  /\ ((220 < String.length text)%nat ->
      bubbleText text = (substring 0 220 text ++ "...")%string
      /\ String.length (substring 0 220 text) = 220%nat
      /\ exists rest, text = (substring 0 220 text ++ rest)%string)
  /\ ((String.length text <= 220)%nat -> bubbleText text = text)
  /\ (text <> ""%string ->
      speechBubble (Some text)
      = Some (bubbleWidth_spec (String.length text), bubbleText text)).
Proof.
  assert (Hwidth : bubbleWidth (Some text) = bubbleWidth_spec (String.length text)).
  { unfold bubbleWidth, bubbleWidth_spec. rewrite messageLength_Some.
    f_equal. ring. }
  split; [exact Hwidth|]. split; [|split; [|split]].
  - unfold bubbleWidth. apply Rmin_r.
  - intros Hlong. split.
    + unfold bubbleText. apply Nat.ltb_lt in Hlong. now rewrite Hlong.
    + apply substring_prefix. lia.
  - intros Hshort. unfold bubbleText. apply Nat.ltb_ge in Hshort.
    now rewrite Hshort.
  - intros Hne. unfold speechBubble, truthy.
    destruct (String.eqb_spec text "") as [-> | _]; [congruence|].
    simpl. now rewrite Hwidth.
Qed.

Lemma C7_bubble_width_and_truncation_witness :
  bubbleText long_text = (substring 0 220 long_text ++ "...")%string
  /\ bubbleText "hi" = "hi"%string.
Proof.
  split.
  - apply (C7_bubble_width_and_truncation long_text). vm_compute. lia.
  - apply (C7_bubble_width_and_truncation "hi"). simpl. lia.
Defined.

(** ** Results on the playback clock *)

Lemma sceneDuration_derived ts : 6 <= sceneDuration None ts.
Proof. destruct ts; simpl; [lra | apply Rmax_l]. Qed.

Lemma frame_time duration delta c : playing c = true ->
  time (frame duration delta c) = Rmin (time c + delta * speedRef c) duration.
Proof.
  intros Hp. unfold frame. rewrite Hp. simpl. unfold Rltb, Rmin.
  destruct (Rlt_dec duration _), (Rle_dec _ duration); lra.
Qed.

Lemma frame_paused duration delta c : playing c = false -> frame duration delta c = c.
Proof. intros Hp. unfold frame. now rewrite Hp. Qed.

Lemma frame_playing duration delta c : playing (frame duration delta c) = playing c.
Proof. unfold frame. destruct (playing c) eqn:E; simpl; congruence. Qed.

Lemma frame_speed duration delta c : speedRef (frame duration delta c) = speedRef c.
Proof. unfold frame. destruct (playing c); reflexivity. Qed.

Lemma step_ok duration c e :
  0 <= duration -> valid e -> clock_ok duration c -> clock_ok duration (step duration c e).
Proof.
  intros Hd He [[H0 H1] Hs]. destruct e as [delta | | | t | s]; simpl in *.
  - unfold clock_ok. rewrite frame_speed. split; [|exact Hs].
    destruct (playing c) eqn:Hp.
    + rewrite frame_time by exact Hp. unfold Rmin.
      destruct (Rle_dec _ duration); nra.
    + rewrite frame_paused by exact Hp. lra.
  - split; simpl; [lra | exact Hs].
  - split; simpl; [lra | exact Hs].
  - split; simpl; [|exact Hs]. split; [apply Rmax_l|].
    apply Rmax_lub; [exact Hd | apply Rmin_l].
  - split; simpl; [lra | exact He].
Qed.

Lemma run_ok duration es : forall c,
  0 <= duration -> Forall valid es -> clock_ok duration c ->
  clock_ok duration (run duration c es).
Proof.
  induction es as [|e es IH]; intros c Hd Hes Hc; simpl; [exact Hc|].
  apply Forall_cons in Hes as [He Hes].
  apply IH; [exact Hd | exact Hes | now apply step_ok].
Qed.

Lemma Scene_frames_currentTime (deltas : list R) : forall s,
  currentTime (Scene_frames deltas s) = currentTime s + total deltas.
Proof.
  induction deltas as [|d deltas IH]; intros s; simpl.
  - lra.
  - unfold Scene_frames in IH. rewrite IH. simpl. lra.
Qed.

Lemma total_nonneg (deltas : list R) : Forall (Rle 0) deltas -> 0 <= total deltas.
Proof.
  induction 1 as [|d deltas Hd _ IH]; simpl; lra.
Qed.

(** C6, refuted as stated, on the clock of the live [Scene], the code it
    cites: that clock has no duration to stay under.  Two frames of 4
    seconds bring it to 8, and there is no bound that it keeps under every
    sequence of frames. *)
Lemma C6_live_scene_clock_counterexample :
  currentTime (Scene_frames [4; 4] Scene_init) = 8
  /\ ~ (exists duration, forall deltas, Forall (Rle 0) deltas ->
          currentTime (Scene_frames deltas Scene_init) <= duration).
Proof.
  split.
  - rewrite Scene_frames_currentTime. simpl. lra.
  - intros [duration H].
    specialize (H [Rmax 0 duration + 1]).
    rewrite Scene_frames_currentTime in H. simpl in H.
    pose proof (Rmax_l 0 duration). pose proof (Rmax_r 0 duration).
    assert (Hok : Forall (Rle 0) [Rmax 0 duration + 1]) by (repeat constructor; lra).
    specialize (H Hok). lra.
Qed.

(** C6, as the code has it.  The clock of the live [Scene] starts at 0 and every frame
    adds its delta to it, with no speed, no pause and no duration: after any
    frames it stands at the total of their deltas, which is never negative,
    and a frame never moves it back.  The playback clock of the replay view
    ([usePlayback]) keeps [0 <= time <= duration] at all times: started at 0
    and driven by any sequence of frames and controls, it stays in range; a
    frame leaves a paused clock alone; while playing a frame moves the time
    to [min (time + delta * speed, duration)], which is never smaller than
    before; and once at [duration] a frame leaves it there, still playing. *)
Theorem C6_live_clock_unbounded_playback_clock_clamped
  (duration speed : R) (autoPlay : bool) (es : list Event) (deltas : list R) :
  0 <= duration -> 0 < speed -> Forall valid es -> Forall (Rle 0) deltas ->
  let live := Scene_frames deltas Scene_init in
  let c := run duration (usePlayback_init autoPlay speed) es in
  (currentTime live = total deltas
   /\ 0 <= currentTime live
   /\ forall delta, 0 <= delta ->
        currentTime (onFrame delta live) = currentTime live + delta
        /\ currentTime live <= currentTime (onFrame delta live))
  /\ 0 <= time c <= duration
  /\ (forall delta, playing c = false -> frame duration delta c = c)
  /\ (forall delta, 0 <= delta -> playing c = true ->
        time (frame duration delta c)
        = Rmin (time c + delta * speedRef c) duration
        /\ time c <= time (frame duration delta c)
        /\ (time c = duration ->
            time (frame duration delta c) = duration
            /\ playing (frame duration delta c) = true)).
Proof.
  intros Hd Hs Hes Hdeltas live c. split.
  { unfold live. rewrite Scene_frames_currentTime. simpl currentTime.
    pose proof (total_nonneg deltas Hdeltas) as Htot.
    split; [lra | split; [lra|]].
    intros delta Hdelta. simpl. rewrite Scene_frames_currentTime. simpl. lra. }
  assert (Hok : clock_ok duration c).
  { apply run_ok; [exact Hd | exact Hes|]. unfold clock_ok; simpl. lra. }
  destruct Hok as [[H0 H1] Hsp]. split; [lra|].
  split; [intros delta Hp; now apply frame_paused|].
  intros delta Hdelta Hp. rewrite frame_time by exact Hp.
  assert (Hadv : 0 <= delta * speedRef c) by nra.
  split; [reflexivity | split].
  - unfold Rmin. destruct (Rle_dec _ duration); lra.
  - intros Heq. split.
    + unfold Rmin. destruct (Rle_dec _ duration); lra.
    + rewrite frame_playing. exact Hp.
Qed.

Lemma C6_clocks_witness :
  currentTime (Scene_frames [4; 4] Scene_init) = total [4; 4]
  /\ 0 <= time (run 6 (usePlayback_init true 1) [Frame 4; Speed 2; Frame 3; Seek 9]) <= 6.
Proof.
  assert (Hes : Forall valid [Frame 4; Speed 2; Frame 3; Seek 9])
    by (repeat constructor; simpl; lra).
  assert (Hdeltas : Forall (Rle 0) [4; 4]) by (repeat constructor; lra).
  destruct (C6_live_clock_unbounded_playback_clock_clamped 6 1 true
              [Frame 4; Speed 2; Frame 3; Seek 9] [4; 4]
              ltac:(lra) ltac:(lra) Hes Hdeltas) as [[Hlive _] [Hrange _]].
  split; [exact Hlive | exact Hrange].
Defined.

(** ** Results on the live feed adapter *)

Lemma handle_other_type now_ms data s :
  ws_type data <> "conversation_update"%string ->
  handleWebSocketMessage now_ms data s = s.
Proof.
  intros H. unfold handleWebSocketMessage.
  destruct (String.eqb_spec (ws_type data) "conversation_update"); congruence.
Qed.

(** C8. A [conversation_update] whose speaker is ["system"] and whose
    [is_finished] is true clears the running flag and appends nothing: the
    message sequence and the roster are as before (and so is the rest of the
    state). *)
Theorem C8_system_finished_clears_running
  (now_ms : Z) (data : WsData) (s : AppState) :
  ws_type data = "conversation_update"%string ->
  upd_speaker (ws_data data) = "system"%string ->
  is_finished (ws_data data) = true ->
  let s' := handleWebSocketMessage now_ms data s in
  isRunning s' = false
  /\ messages s' = messages s
  /\ agents s' = agents s
  /\ s' = setIsRunning false s.
Proof.
  intros Hty Hsp Hfin s'. unfold s', handleWebSocketMessage.
  rewrite Hty, Hsp, Hfin. simpl. repeat split.
Qed.

Lemma C8_system_finished_witness :
  isRunning (handleWebSocketMessage 0 system_finished (setIsRunning true initialState))
  = false.
Proof.
  apply (C8_system_finished_clears_running 0 system_finished
           (setIsRunning true initialState)); reflexivity.
Defined.

Lemma handle_chat now_ms data s :
  ws_type data = "conversation_update"%string ->
  upd_speaker (ws_data data) <> "system"%string ->
  handleWebSocketMessage now_ms data s
  = setAgents (map (fun a => withActive (active_after (upd_speaker (ws_data data)) a) a))
      (setMessages (fun prev => (prev ++ [message_of now_ms (ws_data data)])%list) s).
Proof.
  intros Hty Hsp. unfold handleWebSocketMessage. rewrite Hty. simpl.
  destruct (String.eqb_spec (upd_speaker (ws_data data)) "system"); [congruence|].
  reflexivity.
Qed.

Lemma started_agents :
  agents started
  = [withName "Michael" (withActive true (withName "Michael" userAgent));
     newAgent {| profile_name := "Alice" |}].
Proof.
  unfold started, startConversation, loadProfiles, loaded_profiles.
  rewrite lookup_insert_eq. simpl.
  unfold startConversation_before_fetch, myAgentName. simpl.
  rewrite lookup_insert_ne by discriminate. rewrite !lookup_insert_eq. reflexivity.
Qed.

(** C9, refuted as stated: when Alice speaks, Bob's activity flag does not
    stay as it was; it is reset to false.  The same happens on the roster
    that [startConversation] builds: when the local user speaks, the
    partner, active until then, is made inactive. *)
Lemma C9_others_untouched_counterexample :
  agents (handleWebSocketMessage 10000 alice_says_hi alice_and_bob)
  = [alice; withActive false bob]
  /\ ~ others_untouched "Alice" (agents alice_and_bob)
        (agents (handleWebSocketMessage 10000 alice_says_hi alice_and_bob))
  /\ ~ others_untouched "Michael" (agents started)
        (agents (handleWebSocketMessage 10000 michael_says_hi started)).
Proof.
  assert (Hag : agents (handleWebSocketMessage 10000 alice_says_hi alice_and_bob)
                = [alice; withActive false bob]) by reflexivity.
  split; [exact Hag|]. split.
  - rewrite Hag. intros H.
    specialize (H 1%nat bob (withActive false bob) eq_refl eq_refl).
    simpl in H. assert (false = true) by (apply H; discriminate). discriminate.
  - intros H. rewrite handle_chat in H by (reflexivity || discriminate).
    simpl in H. rewrite started_agents in H.
    specialize (H 1%nat (newAgent {| profile_name := "Alice" |})
                  (withActive false (newAgent {| profile_name := "Alice" |}))
                  eq_refl eq_refl).
    simpl in H. assert (false = true) by (apply H; discriminate). discriminate.
Qed.

(** C9, as the code has it.  A [conversation_update] whose speaker is not
    ["system"] appends one message record, whose identifier is the
    conversation identifier, an underscore and the turn number, and rewrites
    the activity flags of the roster, which is otherwise kept as it is: an
    agent whose display name is the speaker's, or is ["You"] (the local
    user's initial display name), is marked active, and every other agent
    apart from the local user is marked inactive, whatever its flag was.
    Nothing else changes. *)
Theorem C9_update_appends_message_and_resets_activity
  (now_ms : Z) (data : WsData) (s : AppState) :
  ws_type data = "conversation_update"%string ->
  upd_speaker (ws_data data) <> "system"%string ->
  let u := ws_data data in
  let s' := handleWebSocketMessage now_ms data s in
  messages s' = (messages s ++ [message_of now_ms u])%list
  /\ msg_id (message_of now_ms u)
     = (conversation_id u +:+ "_" +:+ Number_toString (turn_number u))%string
  /\ length (agents s') = length (agents s)
  /\ (forall i a a', agents s !! i = Some a -> agents s' !! i = Some a' ->
        a' = withActive (agent_isActive a') a
        /\ (agent_name a = upd_speaker u \/ agent_name a = "You"%string ->
            agent_isActive a' = true)
        /\ (agent_name a <> upd_speaker u -> agent_name a <> "You"%string ->
            agent_id a <> "user"%string -> agent_isActive a' = false))
  /\ isRunning s' = isRunning s
  /\ connectionStatus s' = connectionStatus s
  /\ availableProfiles s' = availableProfiles s.
Proof.
  intros Hty Hsp u s'. unfold s'. rewrite handle_chat by assumption. simpl.
  fold u.
  assert (Hat : forall i a, agents s !! i = Some a ->
            map (fun a => withActive (active_after (upd_speaker u) a) a) (agents s) !! i
            = Some (withActive (active_after (upd_speaker u) a) a)).
  { intros i a Hi.
    change (@map Agent Agent) with (@fmap list _ Agent Agent).
    now rewrite list_lookup_fmap, Hi. }
  split; [reflexivity|]. split; [reflexivity|]. split; [apply length_map|].
  split; [|split; [|split]; reflexivity].
  intros i a a' Hi Hi'. rewrite (Hat i a Hi) in Hi'. injection Hi' as <-.
  unfold active_after; simpl. split; [reflexivity | split].
  - intros [-> | ->].
    + now rewrite String.eqb_refl.
    + rewrite orb_true_r. reflexivity.
  - intros H1 H2 _. apply String.eqb_neq in H1, H2. now rewrite H1, H2.
Qed.

Lemma C9_update_witness :
  messages (handleWebSocketMessage 10000 alice_says_hi alice_and_bob)
  = (messages alice_and_bob ++ [message_of 10000 (ws_data alice_says_hi)])%list
  /\ forall a', agents (handleWebSocketMessage 10000 alice_says_hi alice_and_bob) !! 1%nat
               = Some a' -> agent_isActive a' = false.
Proof.
  assert (Hty : ws_type alice_says_hi = "conversation_update"%string) by reflexivity.
  assert (Hsp : upd_speaker (ws_data alice_says_hi) <> "system"%string) by discriminate.
  destruct (C9_update_appends_message_and_resets_activity
              10000 alice_says_hi alice_and_bob Hty Hsp)
    as [Hmsgs [_ [_ [Hflags _]]]].
  split; [exact Hmsgs|]. intros a' Ha'.
  apply (Hflags 1%nat bob a' eq_refl Ha'); discriminate.
Defined.

Lemma dispatch_app parse (es1 es2 : list SocketEvent) : forall s,
  dispatch parse (es1 ++ es2) s
  = let '(s1, log1) := dispatch parse es1 s in
    let '(s2, log2) := dispatch parse es2 s1 in
    (s2, (log1 ++ log2)%list).
Proof.
  induction es1 as [|e es1 IH]; intros s; simpl.
  - now destruct (dispatch parse es2 s).
  - destruct (listener parse e s) as [s1 thrown]. rewrite IH.
    destruct (dispatch parse es1 s1) as [s2 log1].
    destruct (dispatch parse es2 s2) as [s3 log2].
    now destruct thrown.
Qed.

(** C4. A payload that [JSON.parse] cannot read is dropped: the listener
    throws before any state is touched, so the message sequence, the roster,
    the running flag and the connection state are as before; the listener
    neither closes the socket nor ends the dispatch, and the events received
    before and after the payload are handled exactly as if it had never
    arrived.  The reported exception is the only trace. *)
Theorem C4_unparseable_payload_is_dropped
  (JSON_parse : string -> option WsData) (now_ms : Z) (payload : string)
  (s : AppState) (earlier later : list SocketEvent) :
  JSON_parse payload = None ->
  onmessage JSON_parse now_ms payload s = (s, Some SyntaxError)
  /\ fst (listener JSON_parse (Received now_ms payload) s) = s
  /\ fst (dispatch JSON_parse (Received now_ms payload :: later) s)
     = fst (dispatch JSON_parse later s)
  /\ fst (dispatch JSON_parse (earlier ++ Received now_ms payload :: later) s)
     = fst (dispatch JSON_parse (earlier ++ later) s).
Proof.
  intros Hbad.
  assert (Hon : onmessage JSON_parse now_ms payload s = (s, Some SyntaxError))
    by (unfold onmessage; now rewrite Hbad).
  assert (Hcons : forall s0, fst (dispatch JSON_parse (Received now_ms payload :: later) s0)
                  = fst (dispatch JSON_parse later s0)).
  { intros s0. simpl. unfold onmessage. rewrite Hbad.
    now destruct (dispatch JSON_parse later s0). }
  split; [exact Hon|]. split; [simpl; now rewrite Hon|]. split; [apply Hcons|].
  rewrite !dispatch_app. destruct (dispatch JSON_parse earlier s) as [s1 log1].
  specialize (Hcons s1).
  destruct (dispatch JSON_parse (Received now_ms payload :: later) s1) as [s2 log2].
  destruct (dispatch JSON_parse later s1) as [s3 log3]. simpl in *. congruence.
Qed.

Lemma C4_unparseable_payload_witness :
  fst (dispatch sample_parse
         [Opened; Received 5 "{oops"; Received 10000 "alice says hi"] initialState)
  = fst (dispatch sample_parse [Opened; Received 10000 "alice says hi"] initialState).
Proof.
  apply (C4_unparseable_payload_is_dropped sample_parse 5 "{oops" initialState
           [Opened] [Received 10000 "alice says hi"]).
  reflexivity.
Defined.

(** The roster is never empty. *)
Lemma handle_agents_nonempty now_ms data s :
  agents s <> [] -> agents (handleWebSocketMessage now_ms data s) <> [].
Proof.
  intros H. unfold handleWebSocketMessage.
  destruct (String.eqb _ "conversation_update"); [|exact H].
  destruct (String.eqb _ "system"); [destruct (is_finished _); exact H|].
  simpl. destruct (agents s); [congruence | discriminate].
Qed.

Lemma startConversation_agents_nonempty r s :
  agents s <> [] -> agents (startConversation r s) <> [].
Proof.
  intros H. unfold startConversation.
  destruct (isRunning s || _); [exact H|].
  unfold startConversation_after_fetch, startConversation_before_fetch.
  destruct (availableProfiles s !! "person_alice"), r as [|[] []]; simpl;
    try exact H; discriminate.
Qed.

Lemma loadProfiles_agents_nonempty profiles s :
  agents s <> [] -> agents (loadProfiles profiles s) <> [].
Proof.
  intros H. unfold loadProfiles.
  destruct (profiles !! "my_agent") as [p|]; [|exact H].
  destruct (truthy (profile_name p)); [discriminate | exact H].
Qed.

(** ** Results on [startConversation] *)

Lemma ready_to_start_before_fetch :
  startConversation_before_fetch ready_to_start
  = {| connectionStatus := connected;
       availableProfiles := availableProfiles ready_to_start;
       isRunning := true; messages := [];
       agents := [withName "You" (withActive true userAgent);
                  newAgent {| profile_name := "Alice" |}] |}.
Proof.
  unfold startConversation_before_fetch, myAgentName. simpl.
  rewrite lookup_insert_eq. simpl.
  rewrite lookup_insert_ne by discriminate. rewrite lookup_empty. reflexivity.
Qed.

(** A call made while running, or while not connected, does nothing: no
    request is sent. *)
Lemma startConversation_guarded r s :
  isRunning s = true \/ connectionStatus s <> connected ->
  startConversation r s = s.
Proof.
  intros [H | H]; unfold startConversation.
  - now rewrite H.
  - destruct (connectionStatus s); try congruence; now rewrite orb_true_r.
Qed.

(** C5, refuted as stated: after a start request that fails on the network
    the partner is on the roster, so the state is not the one before the
    call. *)
Lemma C5_failed_start_leaves_partner_counterexample :
  agents (startConversation NetworkFailure ready_to_start)
  = [withName "You" (withActive true userAgent); newAgent {| profile_name := "Alice" |}]
  /\ startConversation NetworkFailure ready_to_start <> ready_to_start.
Proof.
  assert (H : agents (startConversation NetworkFailure ready_to_start)
              = [withName "You" (withActive true userAgent);
                 newAgent {| profile_name := "Alice" |}]).
  { unfold startConversation. simpl. rewrite ready_to_start_before_fetch. reflexivity. }
  split; [exact H|]. intros Heq. rewrite Heq in H. discriminate H.
Qed.

(** C5, as the code has it.  When the call passes its guard (idle and
    connected) and the request fails, the running flag, raised while the
    request was pending, is false again; no message has been appended: the
    message sequence is empty, having been cleared before the request; the
    connection state and the profiles are as before; the roster is untouched
    when the profile [person_alice] is not loaded, and otherwise is the local
    user, made active, followed by that partner, both added before the
    request and kept after its failure. *)
Theorem C5_failed_start_reverts_running_flag (r : FetchOutcome) (s : AppState) :
  isRunning s = false -> connectionStatus s = connected -> fetch_failed r = true ->
  let s' := startConversation r s in
  isRunning (startConversation_before_fetch s) = true
  /\ isRunning s' = false
  /\ messages s' = []
  /\ connectionStatus s' = connectionStatus s
  /\ availableProfiles s' = availableProfiles s
  /\ agents s'
     = match availableProfiles s !! "person_alice" with
       | Some targetProfile =>
           [withName (myAgentName (availableProfiles s)
                        (agent_name (hd blankAgent (agents s))))
              (withActive true (hd blankAgent (agents s)));
            newAgent targetProfile]
       | None => agents s
       end
  /\ (availableProfiles s !! "person_alice" = None -> messages s = [] -> s' = s).
Proof.
  intros Hrun Hconn Hfail s'. unfold s', startConversation.
  assert (Hguard : isRunning s
                   || negb (ConnectionStatus_eqb (connectionStatus s) connected) = false)
    by (rewrite Hrun, Hconn; reflexivity).
  rewrite Hguard.
  assert (Hafter : forall s0, startConversation_after_fetch r s0 = setIsRunning false s0).
  { intros s0. destruct r as [|[] ?]; simpl in *; try reflexivity; discriminate. }
  rewrite Hafter. unfold startConversation_before_fetch.
  destruct (availableProfiles s !! "person_alice") as [tp|]; simpl;
    (do 6 (split; [reflexivity|])).
  - intros H. discriminate H.
  - intros _ Hm. destruct s; simpl in *. subst. reflexivity.
Qed.

Lemma C5_failed_start_witness :
  isRunning (startConversation NetworkFailure ready_to_start) = false.
Proof.
  apply (C5_failed_start_reverts_running_flag NetworkFailure ready_to_start);
    reflexivity.
Defined.

(** ** Results on the bubble timers *)

Lemma runTimers_lookup now_ms name (pending : list (Z * string)) :
  forall am : gmap string string,
  snd (runTimers now_ms pending am) !! name
  = if existsb (fun x => (fst x <=? now_ms)%Z && String.eqb (snd x) name) pending
    then None else am !! name.
Proof.
  induction pending as [|[due sp] rest IH]; intros am; simpl; [reflexivity|].
  destruct (due <=? now_ms)%Z eqn:Hdue; simpl.
  - rewrite IH. destruct (String.eqb_spec sp name) as [-> | Hne]; simpl.
    + rewrite lookup_delete_eq. now destruct (existsb _ rest).
    + now rewrite lookup_delete_ne by exact Hne.
  - specialize (IH am). destruct (runTimers now_ms rest am) as [kept am'].
    exact IH.
Qed.

Lemma runTimers_kept now_ms (pending : list (Z * string)) :
  forall am : gmap string string,
  fst (runTimers now_ms pending am)
  = List.filter (fun x => negb (fst x <=? now_ms)%Z) pending.
Proof.
  induction pending as [|[due sp] rest IH]; intros am; simpl; [reflexivity|].
  destruct (due <=? now_ms)%Z eqn:Hdue; simpl; [apply IH|].
  specialize (IH am). destruct (runTimers now_ms rest am) as [kept am'].
  simpl in *. now rewrite IH.
Qed.

Lemma advance_lookup now_ms name s :
  agentMessages (advance now_ms s) !! name
  = if existsb (fun x => (fst x <=? now_ms)%Z && String.eqb (snd x) name) (timeouts s)
    then None else agentMessages s !! name.
Proof.
  unfold advance. rewrite <- runTimers_lookup.
  now destruct (runTimers now_ms (timeouts s) (agentMessages s)).
Qed.

Lemma advance_timeouts now_ms s :
  timeouts (advance now_ms s)
  = List.filter (fun x => negb (fst x <=? now_ms)%Z) (timeouts s).
Proof.
  unfold advance. rewrite <- (runTimers_kept now_ms (timeouts s) (agentMessages s)).
  now destruct (runTimers now_ms (timeouts s) (agentMessages s)).
Qed.

Lemma existsb_filter_due (t0 t : Z) name (pending : list (Z * string)) :
  existsb (fun x => (fst x <=? t)%Z && String.eqb (snd x) name)
          (List.filter (fun x => negb (fst x <=? t0)%Z) pending)
  = clearDue t0 t name pending.
Proof.
  unfold clearDue. induction pending as [|[due sp] rest IH]; simpl; [reflexivity|].
  destruct (due <=? t0)%Z eqn:H0; simpl.
  - rewrite IH. assert ((t0 <? due)%Z = false) as -> by lia. reflexivity.
  - rewrite IH. assert ((t0 <? due)%Z = true) as -> by lia. reflexivity.
Qed.

(** The bubble of the speaker of the latest message, at any later instant. *)
Lemma receive_then_advance (s : SceneState) messages m (t0 t : Z) :
  last messages = Some m -> (t0 <= t)%Z ->
  agentMessages (advance t (receive t0 messages s)) !! msg_speaker m
  = if (t0 + 5000 <=? t)%Z || clearDue t0 t (msg_speaker m) (timeouts s)
    then None else Some (msg_message m).
Proof.
  intros Hlast Ht. rewrite advance_lookup. unfold receive, messagesEffect.
  rewrite Hlast. simpl. rewrite existsb_app, advance_timeouts, existsb_filter_due.
  simpl. rewrite String.eqb_refl, lookup_insert_eq, orb_false_r, andb_true_r.
  rewrite orb_comm. reflexivity.
Qed.

Lemma clearDue_false after upto name (pending : list (Z * string)) :
  (forall due, (due, name) ∈ pending -> (due <= after)%Z) ->
  clearDue after upto name pending = false.
Proof.
  intros H. unfold clearDue. induction pending as [|[due sp] rest IH]; simpl;
    [reflexivity|].
  rewrite IH by (intros d Hd; apply H; now right).
  destruct (String.eqb_spec sp name) as [-> | Hne].
  - assert (due <= after)%Z by (apply H; now left).
    assert ((after <? due)%Z = false) as -> by lia. reflexivity.
  - now rewrite andb_false_r.
Qed.

Lemma clearDue_true after upto name due (pending : list (Z * string)) :
  (due, name) ∈ pending -> (after < due <= upto)%Z ->
  clearDue after upto name pending = true.
Proof.
  intros Hin Hdue. unfold clearDue. apply existsb_exists. exists (due, name).
  split; [now apply list_elem_of_In|]. simpl.
  rewrite String.eqb_refl. assert ((after <? due)%Z = true) as -> by lia.
  assert ((due <=? upto)%Z = true) as -> by lia. reflexivity.
Qed.

Lemma bubbleAt_two_messages (t : Z) :
  (3000 <= t)%Z ->
  bubbleAt [(0%Z, [alice_first]); (3000%Z, [alice_first; alice_second])] t "Alice"
  = if (5000 <=? t)%Z then None else Some "are you there?"%string.
Proof.
  intros Ht. unfold bubbleAt, replay. simpl fold_left.
  change "Alice"%string with (msg_speaker alice_second).
  rewrite (receive_then_advance _ [alice_first; alice_second] alice_second 3000 t)
    by (reflexivity || exact Ht).
  unfold receive at 1. unfold messagesEffect. simpl last.
  cbn [timeouts]. rewrite advance_timeouts. simpl.
  change (0 + 5000)%Z with 5000%Z. change (3000 + 5000)%Z with 8000%Z.
  destruct (5000 <=? t)%Z eqn:H5.
  - now rewrite orb_true_r.
  - assert ((8000 <=? t)%Z = false) as -> by lia. reflexivity.
Qed.

(** C3, refuted as stated: Alice's second message arrives 3 s after her
    first; 2 s later the timer of the first message fires and removes the
    bubble of the second, which was due to stay until 8000 ms. *)
Lemma C3_last_message_wins_counterexample :
  bubbleAt [(0%Z, [alice_first]); (3000%Z, [alice_first; alice_second])] 5000 "Alice"
  = None
  /\ ~ last_message_wins.
Proof.
  assert (H : bubbleAt [(0%Z, [alice_first]); (3000%Z, [alice_first; alice_second])]
                5000 "Alice" = None)
    by (rewrite bubbleAt_two_messages by lia; reflexivity).
  split; [exact H|]. intros Hwins.
  specialize (Hwins alice_first alice_second 0%Z 3000%Z 5000%Z eq_refl eq_refl).
  simpl in Hwins. rewrite H in Hwins.
  assert (None = Some "are you there?"%string) by (apply Hwins; lia).
  discriminate.
Qed.

(** C3, as the code has it.  Every message sets a timeout of its own and no
    timeout is ever cancelled.  After a message of an agent has arrived at
    [t0], the agent's bubble shows that message until the first instant at
    which a clear for that agent is due: its own, at [t0 + 5000], or one left
    pending by an earlier message of the agent.  So the message stays for its
    full five seconds exactly when no earlier clear for the agent is pending,
    and a pending clear of an older message does remove the newer bubble. *)
Theorem C3_bubble_stays_until_first_pending_clear
  (s : SceneState) (messages : list ConversationMessage)
  (m : ConversationMessage) (t0 t : Z) :
  last messages = Some m -> (t0 <= t)%Z ->
  let shown := agentMessages (advance t (receive t0 messages s)) !! msg_speaker m in
  shown = (if (t0 + 5000 <=? t)%Z || clearDue t0 t (msg_speaker m) (timeouts s)
           then None else Some (msg_message m))
  /\ ((forall due, (due, msg_speaker m) ∈ timeouts s -> (due <= t0)%Z) ->
      (t < t0 + 5000)%Z -> shown = Some (msg_message m))
  /\ ((t0 + 5000 <= t)%Z -> shown = None)
  /\ (forall due, (due, msg_speaker m) ∈ timeouts s -> (t0 < due <= t)%Z ->
      shown = None).
Proof.
  intros Hlast Ht shown.
  assert (Hshown := receive_then_advance s messages m t0 t Hlast Ht).
  fold shown in Hshown. split; [exact Hshown|]. split; [|split].
  - intros Hnone Hlt. rewrite Hshown, clearDue_false by exact Hnone.
    assert ((t0 + 5000 <=? t)%Z = false) as -> by lia. reflexivity.
  - intros Hge. rewrite Hshown.
    assert ((t0 + 5000 <=? t)%Z = true) as -> by lia. reflexivity.
  - intros due Hin Hdue. rewrite Hshown, (clearDue_true t0 t _ due) by assumption.
    now rewrite orb_true_r.
Qed.

Lemma C3_bubble_witness :
  agentMessages (advance 4999 (receive 0 [alice_first] Scene_init)) !! "Alice"
  = Some "hello"%string
  /\ agentMessages (advance 5000 (receive 0 [alice_first] Scene_init)) !! "Alice"
     = None
  /\ agentMessages
       (advance 5000
          (receive 3000 [alice_first; alice_second]
             (receive 0 [alice_first] Scene_init))) !! "Alice"
     = None.
Proof.
  split; [|split].
  - refine (proj1 (proj2 (C3_bubble_stays_until_first_pending_clear
                            Scene_init [alice_first] alice_first 0 4999 _ _)) _ _).
    + reflexivity.
    + lia.
    + intros due Hin. simpl in Hin. inversion Hin.
    + lia.
  - refine (proj1 (proj2 (proj2 (C3_bubble_stays_until_first_pending_clear
                                   Scene_init [alice_first] alice_first 0 5000 _ _))) _).
    + reflexivity.
    + lia.
    + lia.
  - refine (proj2 (proj2 (proj2 (C3_bubble_stays_until_first_pending_clear
              (receive 0 [alice_first] Scene_init)
              [alice_first; alice_second] alice_second 3000 5000 _ _))) 5000%Z _ _).
    + reflexivity.
    + lia.
    + simpl. apply list_elem_of_singleton. reflexivity.
    + lia.
Defined.

(** The clock of the live [Scene] is not the playback clock: it adds the raw
    frame delta, without speed, duration or clamp. *)
Lemma onFrame_currentTime delta s : currentTime (onFrame delta s) = currentTime s + delta.
Proof. reflexivity. Qed.

Lemma onFrame_unbounded (bound : R) (s : SceneState) :
  0 <= currentTime s -> exists delta, 0 <= delta /\ bound < currentTime (onFrame delta s).
Proof.
  intros H. exists (Rmax 0 bound + 1). simpl.
  pose proof (Rmax_l 0 bound). pose proof (Rmax_r 0 bound). split; lra.
Qed.

(** * Part III: further results on the code around the claims *)

(** ** Decorations *)

(** The sparkle never shrinks below its natural size and never grows beyond
    1.3 times it; the avatar's tilt stays within 0.06 radians either way. *)
Theorem Sparkle_scale_and_tilt_bounded (t : R) :
  1 <= Sparkle_scale t <= 1.3 /\ -0.06 <= avatar_tilt t <= 0.06.
Proof.
  unfold Sparkle_scale, avatar_tilt.
  pose proof (SIN_bound (t * 6)) as [H1 H2].
  pose proof (SIN_bound (t * 1.3)) as [H3 H4].
  repeat split; lra.
Qed.

Lemma Ring_loop_spec r y todo : forall i arr,
  Ring_loop r y todo i arr
  = (arr ++ map (fun k => polarToVec3 r (INR k / 64 * TAU) y) (seq i todo))%list.
Proof.
  induction todo as [|todo IH]; intros i arr; simpl.
  - now rewrite app_nil_r.
  - rewrite IH, <- app_assoc. reflexivity.
Qed.

Lemma Ring_points_lookup r y i p :
  Ring_points r y !! i = Some p <->
  (i < 64)%nat /\ p = polarToVec3 r (INR i / 64 * TAU) y.
Proof.
  unfold Ring_points. rewrite Ring_loop_spec, app_nil_l.
  change (@map nat Vec3) with (@fmap list _ nat Vec3).
  rewrite list_lookup_fmap. split.
  - intros H. destruct (seq 0 64 !! i) as [k|] eqn:Hk; [|discriminate].
    apply lookup_seq in Hk as [-> Hlt]. simpl in H. injection H as <-.
    split; [exact Hlt | reflexivity].
  - intros [Hlt ->]. rewrite (proj2 (lookup_seq 0 64 i i) (conj eq_refl Hlt)).
    reflexivity.
Qed.

Lemma polar_angle_inj (r y y' : R) (N i j : nat) :
  r <> 0 -> (i < N)%nat -> (j < N)%nat ->
  polarToVec3 r (INR i / INR N * TAU) y = polarToVec3 r (INR j / INR N * TAU) y' ->
  i = j.
Proof.
  intros Hr Hi Hj Heq. apply (ring_point_inj r N i j Hr Hi Hj).
  rewrite <- !polarToVec3_ring_point. unfold polarToVec3 in *.
  injection Heq as Hc _ Hs. now rewrite Hc, Hs.
Qed.

(** The ring drawn on the ground has 64 markers; marker [i] is at angle
    [i / 64] of a turn, all at the height [y] given; for a radius that is
    not negative every marker is at horizontal distance [r] from the axis,
    and for a radius that is not zero no two markers coincide. *)
Theorem Ring_markers (r y : R) :
  length (Ring_points r y) = 64%nat
  /\ (forall i p, Ring_points r y !! i = Some p ->
        p = polarToVec3 r (INR i / 64 * TAU) y /\ vy p = y
        /\ (0 <= r -> sqrt (vx p * vx p + vz p * vz p) = r))
  /\ (r <> 0 -> NoDup (Ring_points r y)).
Proof.
  split; [|split].
  - unfold Ring_points. rewrite Ring_loop_spec, app_nil_l, length_map, length_seq.
    reflexivity.
  - intros i p Hp. apply Ring_points_lookup in Hp as [_ ->].
    split; [reflexivity|]. split; [reflexivity|]. intros Hr.
    unfold polarToVec3, vx, vz; simpl. set (a := INR i / 64 * TAU).
    pose proof (sin2_cos2 a) as H. unfold Rsqr in H.
    replace (cos a * r * (cos a * r) + sin a * r * (sin a * r)) with (r * r) by nra.
    now apply sqrt_square.
  - intros Hr. apply NoDup_alt. intros i j p Hi Hj.
    apply Ring_points_lookup in Hi as [Hi ->].
    apply Ring_points_lookup in Hj as [Hj Heq].
    apply (polar_angle_inj r y y 64 i j Hr Hi Hj).
    replace (INR 64) with 64 by (simpl; lra). exact Heq.
Qed.

Lemma Ring_markers_witness : NoDup (Ring_points 6 0.001).
Proof. apply (Ring_markers 6 0.001). lra. Defined.

(** ** The speech bubble and the orb label *)

Lemma bubbleWidth_Some (text : string) :
  bubbleWidth (Some text) = Rmin (INR (String.length text) * 0.06 + 1.6) 5.8.
Proof. unfold bubbleWidth. now rewrite messageLength_Some. Qed.

(** The bubble is between 1.6 and 5.8 wide; a longer text never gets a
    narrower bubble; the cap of 5.8 is reached exactly by the texts of 70
    characters and more, and below it the width is the linear formula. *)
Theorem bubbleWidth_profile (text longer : string) :
  1.6 <= bubbleWidth (Some text) <= 5.8
  /\ bubbleWidth None = 1.6
  /\ ((String.length text <= String.length longer)%nat ->
      bubbleWidth (Some text) <= bubbleWidth (Some longer))
  /\ (bubbleWidth (Some text) = 5.8 <-> (70 <= String.length text)%nat)
  /\ ((String.length text < 70)%nat ->
      bubbleWidth (Some text) = INR (String.length text) * 0.06 + 1.6).
Proof.
  rewrite !bubbleWidth_Some.
  pose proof (pos_INR (String.length text)) as Hpos.
  assert (H70 : INR 70 = 70) by (simpl; lra).
  split; [|split; [|split; [|split]]].
  - unfold Rmin. destruct (Rle_dec _ 5.8); lra.
  - unfold bubbleWidth; simpl. unfold Rmin. destruct (Rle_dec _ 5.8); lra.
  - intros Hle. apply le_INR in Hle. unfold Rmin.
    destruct (Rle_dec _ 5.8), (Rle_dec _ 5.8); lra.
  - split.
    + intros Heq. destruct (Nat.le_gt_cases 70 (String.length text)) as [H | H];
        [exact H | exfalso].
      apply lt_INR in H. rewrite H70 in H. unfold Rmin in Heq.
      destruct (Rle_dec _ 5.8); lra.
    + intros Hge. apply le_INR in Hge. rewrite H70 in Hge. unfold Rmin.
      destruct (Rle_dec _ 5.8); lra.
  - intros Hlt. apply lt_INR in Hlt. rewrite H70 in Hlt. unfold Rmin.
    destruct (Rle_dec _ 5.8); lra.
Qed.

Lemma bubbleWidth_profile_witness :
  bubbleWidth (Some "hi"%string) <= bubbleWidth (Some "hi there"%string)
  /\ bubbleWidth (Some "hi"%string) = INR 2 * 0.06 + 1.6.
Proof.
  destruct (bubbleWidth_profile "hi" "hi there") as [_ [_ [Hmono [_ Hlin]]]].
  split; [apply Hmono | apply Hlin]; simpl; lia.
Defined.

(** The text inside the bubble is always given the bubble's width less 0.35:
    the floor of 1.2 in [Math.max(bubbleWidth - 0.35, 1.2)] never applies,
    since the bubble is at least 1.6 wide.  The text width therefore lies
    between 1.25 and 5.45. *)
Theorem textMaxWidth_floor_never_applies (currentMessage : option string) :
  textMaxWidth currentMessage = bubbleWidth currentMessage - 0.35
  /\ 1.25 <= textMaxWidth currentMessage <= 5.45.
Proof.
  assert (Hw : 1.6 <= bubbleWidth currentMessage <= 5.8).
  { unfold bubbleWidth. pose proof (pos_INR (messageLength currentMessage)).
    unfold Rmin. destruct (Rle_dec _ 5.8); lra. }
  assert (Heq : textMaxWidth currentMessage = bubbleWidth currentMessage - 0.35).
  { unfold textMaxWidth, Rmax. destruct (Rle_dec _ 1.2); lra. }
  rewrite Heq. split; [reflexivity | lra].
Qed.

(** Truncation at [n] characters with an ellipsis, as both the bubble and
    the orb do it. *)
Lemma substring_all (s : string) : substring 0 (String.length s) s = s.
Proof. induction s as [|c s IH]; simpl; [reflexivity | now rewrite IH]. Qed.

Lemma substring_app_prefix (p rest : string) :
  substring 0 (String.length p) (p +:+ rest) = p.
Proof.
  induction p as [|c p IH].
  - destruct rest; reflexivity.
  - change (String c p +:+ rest) with (String c (p +:+ rest)). simpl.
    now rewrite IH.
Qed.

Lemma length_append (a b : string) :
  String.length (a +:+ b) = (String.length a + String.length b)%nat.
Proof.
  induction a as [|c a IH]; [reflexivity|].
  change (String c a +:+ b) with (String c (a +:+ b)). simpl. now rewrite IH.
Qed.

Lemma truncate_facts (n : nat) (s : string) :
  let cut := fun x : string =>
    if (n <? String.length x)%nat then substring 0 n x +:+ "..." else x in
  (String.length (cut s) <= n + 3)%nat /\ cut (cut s) = cut s.
Proof.
  intros cut. unfold cut. destruct (n <? String.length s)%nat eqn:Hlong.
  - apply Nat.ltb_lt in Hlong.
    destruct (substring_prefix n s ltac:(lia)) as [Hlen _].
    pose proof (substring_app_prefix (substring 0 n s) "...") as Hcut.
    rewrite Hlen in Hcut.
    rewrite length_append, Hlen. simpl. split; [lia|].
    assert ((n <? n + 3)%nat = true) as -> by (apply Nat.ltb_lt; lia).
    now rewrite Hcut.
  - rewrite Hlong. apply Nat.ltb_ge in Hlong. split; [lia | reflexivity].
Qed.

(** The text shown in a bubble is at most 223 characters long, and
    truncating a text that has already been truncated changes nothing. *)
Theorem bubbleText_bounded_and_idempotent (text : string) :
  (String.length (bubbleText text) <= 223)%nat
  /\ bubbleText (bubbleText text) = bubbleText text.
Proof. exact (truncate_facts 220 text). Qed.

(** The label of an orb is cut at 100 characters: a longer text shows its
    first 100 characters and an ellipsis, a shorter one is shown whole; the
    label is at most 103 characters long, truncating twice is truncating
    once, and an absent or empty text gives no label at all. *)
Theorem orbText_truncation (text : string) :
  ((100 < String.length text)%nat ->
     orbText text = (substring 0 100 text +:+ "...")%string
     /\ exists rest, text = (substring 0 100 text +:+ rest)%string)
  /\ ((String.length text <= 100)%nat -> orbText text = text)
  /\ (String.length (orbText text) <= 103)%nat
  /\ orbText (orbText text) = orbText text
  /\ orbLabel None = None /\ orbLabel (Some ""%string) = None
  /\ (text <> ""%string -> orbLabel (Some text) = Some (orbText text)).
Proof.
  split; [|split; [|split; [|split; [|split; [|split]]]]].
  - intros Hlong. split.
    + unfold orbText. apply Nat.ltb_lt in Hlong. now rewrite Hlong.
    + apply substring_prefix. lia.
  - intros Hshort. unfold orbText. apply Nat.ltb_ge in Hshort. now rewrite Hshort.
  - exact (proj1 (truncate_facts 100 text)).
  - exact (proj2 (truncate_facts 100 text)).
  - reflexivity.
  - reflexivity.
  - intros Hne. unfold orbLabel, truthy.
    destruct (String.eqb_spec text "") as [-> | _]; [congruence | reflexivity].
Qed.

Lemma orbText_truncation_witness :
  orbText long_text = (substring 0 100 long_text +:+ "...")%string
  /\ orbText "hi" = "hi"%string
  /\ orbLabel (Some "hi"%string) = Some (orbText "hi").
Proof.
  destruct (orbText_truncation long_text) as [Hlong _].
  destruct (orbText_truncation "hi") as [_ [Hshort [_ [_ [_ [_ Hlabel]]]]]].
  split; [apply Hlong; vm_compute; lia|].
  split; [apply Hshort; simpl; lia | apply Hlabel; discriminate].
Defined.

(** ** The orbs of the live scene *)

Lemma useCircleLayout_lookup (ids : list string) (r : R) i id :
  NoDup ids -> ids !! i = Some id ->
  useCircleLayout ids r !! id = Some (ring_point r (length ids) i).
Proof.
  intros Hnd Hi. unfold useCircleLayout.
  assert (Hlen : (i < length ids)%nat) by exact (lookup_lt_Some _ _ _ Hi).
  replace (Nat.max (length ids) 1) with (length ids) by lia.
  rewrite (forEach_set_lookup r (length ids) ids 0 ∅ i id Hnd Hi).
  now rewrite polarToVec3_ring_point.
Qed.

Lemma Scene_positions_defined (agents : list Agent) a :
  a ∈ agents -> is_Some (Scene_positions agents !! agent_id a).
Proof.
  intros Ha. unfold Scene_positions, useCircleLayout. apply forEach_set_dom.
  left. apply list_elem_of_fmap. exists a. split; [reflexivity | exact Ha].
Qed.

Lemma speakerAgent_Some agents m a :
  speakerAgent agents m = Some a ->
  a ∈ agents /\ agent_name a = msg_speaker m.
Proof.
  unfold speakerAgent. intros H. apply find_some in H as [Hin Hname].
  split; [now apply list_elem_of_In | now apply String.eqb_eq].
Qed.

Lemma speakerAgent_None agents m :
  speakerAgent agents m = None <->
  forall a, a ∈ agents -> agent_name a <> msg_speaker m.
Proof.
  unfold speakerAgent. split.
  - intros H a Ha. apply list_elem_of_In in Ha.
    apply (find_none _ _ H) in Ha. now apply String.eqb_neq.
  - intros H. destruct (List.find _ agents) as [a|] eqn:Hf; [|reflexivity].
    apply find_some in Hf as [Hin Hname]. apply String.eqb_eq in Hname.
    exfalso. apply (H a); [now apply list_elem_of_In | exact Hname].
Qed.

Lemma otherAgents_elem agents m b :
  b ∈ otherAgents agents m <->
  b ∈ agents /\ agent_name b <> msg_speaker m /\ agent_isActive b = true.
Proof.
  unfold otherAgents. rewrite !list_elem_of_In, filter_In, andb_true_iff, negb_true_iff.
  rewrite String.eqb_neq. tauto.
Qed.

(** An orb is drawn for a message exactly when its speaker is on the roster,
    some other agent is active, and the scene clock lies within the four
    seconds that follow the message's timestamp.  The lookups of the two
    positions never fail: the layout is built from the same roster. *)
Theorem Scene_orb_visible_iff
  (agents : list Agent) (currentTime : R) (m : ConversationMessage) :
  Scene_orb (Scene_positions agents) agents currentTime m <> None
  <-> (exists a, a ∈ agents /\ agent_name a = msg_speaker m)
      /\ (exists b, b ∈ agents /\ agent_name b <> msg_speaker m
                    /\ agent_isActive b = true)
      /\ msg_timestamp m <= currentTime <= msg_timestamp m + 4.
Proof.
  assert (Hwin : msg_timestamp m <= currentTime <= msg_timestamp m + 4
                 <-> 0 <= tNorm (msg_timestamp m) 4 currentTime <= 1).
  { pose proof (tNorm_times (msg_timestamp m) 4 currentTime ltac:(lra)). lra. }
  unfold Scene_orb. split.
  - intros H. destruct (speakerAgent agents m) as [a|] eqn:Ha; [|congruence].
    apply speakerAgent_Some in Ha as [Ha Hname].
    destruct (otherAgents agents m) as [|b rest] eqn:Hb; [congruence|].
    assert (Hb' : b ∈ otherAgents agents m) by (rewrite Hb; now left).
    apply otherAgents_elem in Hb' as [Hbin [Hbn Hba]].
    split; [eauto|]. split; [eauto|]. apply Hwin.
    destruct (Scene_positions agents !! agent_id a) as [f|]; [|congruence].
    destruct (Scene_positions agents !! agent_id b) as [t|]; [|congruence].
    destruct (Rlt_dec (tNorm (msg_timestamp m) 4 currentTime) 0) as [Hn | Hn];
      [exfalso; apply H, MessageOrb_hidden; now left|].
    destruct (Rlt_dec 1 (tNorm (msg_timestamp m) 4 currentTime)) as [Hm | Hm];
      [exfalso; apply H, MessageOrb_hidden; now right|].
    lra.
  - intros [[a [Ha Hname]] [[b [Hb [Hbn Hba]]] Ht]]. apply Hwin in Ht.
    destruct (speakerAgent agents m) as [a'|] eqn:Ha'.
    + apply speakerAgent_Some in Ha' as [Ha' _].
      destruct (otherAgents agents m) as [|b' rest] eqn:Hb'.
      * assert (Hin : b ∈ otherAgents agents m) by now apply otherAgents_elem.
        rewrite Hb' in Hin. inversion Hin.
      * assert (Hin : b' ∈ otherAgents agents m) by (rewrite Hb'; now left).
        apply otherAgents_elem in Hin as [Hin _].
        destruct (Scene_positions_defined agents a' Ha') as [f ->].
        destruct (Scene_positions_defined agents b' Hin) as [t ->].
        rewrite MessageOrb_shown by exact Ht. discriminate.
    + exfalso. apply (proj1 (speakerAgent_None agents m) Ha' a Ha Hname).
Qed.

(** On a roster of distinct identifiers an orb never travels from an agent
    to itself: it goes from the position of an agent with the speaker's name
    to the different position of an active agent with another name. *)
Theorem Scene_orb_joins_two_positions
  (agents : list Agent) (currentTime : R) (m : ConversationMessage) (p : Vec3) :
  NoDup (map agent_id agents) ->
  Scene_orb (Scene_positions agents) agents currentTime m = Some p ->
  exists speaker target fromPos toPos,
    speaker ∈ agents /\ target ∈ agents
    /\ agent_name speaker = msg_speaker m
    /\ agent_name target <> msg_speaker m /\ agent_isActive target = true
    /\ Scene_positions agents !! agent_id speaker = Some fromPos
    /\ Scene_positions agents !! agent_id target = Some toPos
    /\ fromPos <> toPos
    /\ MessageOrb fromPos toPos (msg_timestamp m) 4 1.5 currentTime = Some p.
Proof.
  intros Hnd H. unfold Scene_orb in H.
  destruct (speakerAgent agents m) as [a|] eqn:Ha; [|discriminate].
  apply speakerAgent_Some in Ha as [Ha Hname].
  destruct (otherAgents agents m) as [|b rest] eqn:Hb; [discriminate|].
  assert (Hb' : b ∈ otherAgents agents m) by (rewrite Hb; now left).
  apply otherAgents_elem in Hb' as [Hbin [Hbn Hba]].
  destruct (Scene_positions agents !! agent_id a) as [f|] eqn:Hf; [|discriminate].
  destruct (Scene_positions agents !! agent_id b) as [t|] eqn:Ht; [|discriminate].
  exists a, b, f, t. repeat (split; [assumption|]). split; [|exact H].
  apply list_elem_of_lookup in Ha as [i Hi]. apply list_elem_of_lookup in Hbin as [j Hj].
  assert (Hi' : map agent_id agents !! i = Some (agent_id a)).
  { change (@map Agent string) with (@fmap list _ Agent string).
    now rewrite list_lookup_fmap, Hi. }
  assert (Hj' : map agent_id agents !! j = Some (agent_id b)).
  { change (@map Agent string) with (@fmap list _ Agent string).
    now rewrite list_lookup_fmap, Hj. }
  unfold Scene_positions in Hf, Ht.
  rewrite (useCircleLayout_lookup _ 6 i _ Hnd Hi') in Hf.
  rewrite (useCircleLayout_lookup _ 6 j _ Hnd Hj') in Ht.
  intros Heq. subst t.
  assert (Hij : i = j).
  { apply (ring_point_inj 6 (length (map agent_id agents))); [lra | | | congruence].
    - exact (lookup_lt_Some _ _ _ Hi').
    - exact (lookup_lt_Some _ _ _ Hj'). }
  subst j. rewrite Hi in Hj. injection Hj as ->. congruence.
Qed.

Lemma Scene_orb_joins_two_positions_witness :
  exists p speaker target fromPos toPos,
    speaker ∈ [alice; bob] /\ target ∈ [alice; bob]
    /\ agent_name speaker = msg_speaker alice_first
    /\ agent_name target <> msg_speaker alice_first /\ agent_isActive target = true
    /\ Scene_positions [alice; bob] !! agent_id speaker = Some fromPos
    /\ Scene_positions [alice; bob] !! agent_id target = Some toPos
    /\ fromPos <> toPos
    /\ MessageOrb fromPos toPos (msg_timestamp alice_first) 4 1.5 2 = Some p.
Proof.
  destruct (Scene_orb (Scene_positions [alice; bob]) [alice; bob] 2 alice_first)
    as [p|] eqn:E.
  - exists p.
    apply (Scene_orb_joins_two_positions [alice; bob] 2 alice_first p); [|exact E].
    simpl. apply NoDup_cons. split; [|apply NoDup_singleton].
    intros H. apply list_elem_of_singleton in H. discriminate.
  - exfalso. revert E. apply Scene_orb_visible_iff. split; [|split].
    + exists alice. split; [now left | reflexivity].
    + exists bob. split; [right; now left | split; [discriminate | reflexivity]].
    + simpl. lra.
Defined.

(** The live scene counts seconds from its mount, while a message is stamped
    with the wall clock of its arrival ([Date.now() / 1000]): as long as the
    frames rendered since the mount add up to less than that stamp, the orb
    of the message is not drawn, whoever is on the roster. *)
Theorem Scene_orb_hidden_until_clock_reaches_stamp
  (positions : gmap string Vec3) (agents : list Agent) (deltas : list R)
  (now_ms : Z) (u : ConversationUpdate) :
  total deltas < seconds now_ms ->
  Scene_orb positions agents (currentTime (Scene_frames deltas Scene_init))
    (message_of now_ms u) = None.
Proof.
  intros Hlt. rewrite Scene_frames_currentTime. simpl currentTime.
  unfold Scene_orb.
  destruct (speakerAgent agents _); [|reflexivity].
  destruct (otherAgents agents _); [reflexivity|].
  destruct (positions !! _); [|reflexivity].
  destruct (positions !! _); [|reflexivity].
  apply MessageOrb_hidden. left. simpl msg_timestamp.
  apply (proj1 (tNorm_sign (seconds now_ms) 4 (0 + total deltas) ltac:(lra))). lra.
Qed.

Lemma Scene_orb_hidden_witness :
  Scene_orb (Scene_positions [alice; bob]) [alice; bob]
    (currentTime (Scene_frames [0.016; 0.016; 3600] Scene_init))
    (message_of 1762150000000 (ws_data alice_says_hi)) = None.
Proof.
  apply (Scene_orb_hidden_until_clock_reaches_stamp
           (Scene_positions [alice; bob]) [alice; bob] [0.016; 0.016; 3600]
           1762150000000 (ws_data alice_says_hi)).
  unfold total, seconds; simpl. lra.
Defined.

Lemma handle_chat_agents now_ms data s :
  ws_type data = "conversation_update"%string ->
  upd_speaker (ws_data data) <> "system"%string ->
  agents (handleWebSocketMessage now_ms data s)
  = map (fun a => withActive (active_after (upd_speaker (ws_data data)) a) a) (agents s).
Proof. intros Hty Hsp. now rewrite handle_chat. Qed.

(** Right after a chat update the only agents left active are the speaker
    and those named ["You"]; so, with the roster as that update leaves it,
    the orb of the message just received can only be aimed at an agent named
    ["You"], and when nobody on the roster carries that name no orb is drawn
    for that message, wherever the clock stands.  This holds until the next
    update sets the activity flags anew. *)
Theorem latest_orb_needs_agent_named_You
  (now_ms : Z) (data : WsData) (s : AppState)
  (positions : gmap string Vec3) (currentTime : R) :
  ws_type data = "conversation_update"%string ->
  upd_speaker (ws_data data) <> "system"%string ->
  let s' := handleWebSocketMessage now_ms data s in
  let m := message_of now_ms (ws_data data) in
  (forall b, b ∈ otherAgents (agents s') m -> agent_name b = "You"%string)
  /\ ((forall a, a ∈ agents s -> agent_name a <> "You"%string) ->
      Scene_orb positions (agents s') currentTime m = None).
Proof.
  intros Hty Hsp s' m.
  assert (Hothers : forall b, b ∈ otherAgents (agents s') m ->
            agent_name b = "You"%string /\ exists a, a ∈ agents s /\ agent_name a = agent_name b).
  { intros b Hb. apply otherAgents_elem in Hb as [Hin [Hname Hact]].
    unfold s' in Hin. rewrite handle_chat_agents in Hin by assumption.
    apply list_elem_of_fmap in Hin as [a0 [-> Ha0]].
    simpl in *. unfold active_after in Hact.
    apply orb_true_iff in Hact as [H | H]; apply String.eqb_eq in H.
    - contradiction.
    - split; [exact H | eauto]. }
  split; [intros b Hb; now apply Hothers|].
  intros Hnone. unfold Scene_orb.
  destruct (speakerAgent (agents s') m) as [sp|]; [|reflexivity].
  destruct (otherAgents (agents s') m) as [|b rest] eqn:Hb; [reflexivity|].
  exfalso. destruct (Hothers b ltac:(now left)) as [Hyou [a [Ha Hname]]].
  apply (Hnone a Ha). congruence.
Qed.

Lemma latest_orb_needs_agent_named_You_witness :
  Scene_orb (Scene_positions (agents started))
    (agents (handleWebSocketMessage 10000 michael_says_hi started)) 10
    (message_of 10000 (ws_data michael_says_hi)) = None.
Proof.
  refine (proj2 (latest_orb_needs_agent_named_You 10000 michael_says_hi started
                   (Scene_positions (agents started)) 10 _ _) _).
  - reflexivity.
  - discriminate.
  - intros a Ha. rewrite started_agents in Ha.
    apply elem_of_cons in Ha as [-> | Ha]; [discriminate|].
    apply list_elem_of_singleton in Ha as ->. discriminate.
Defined.

(** ** The socket listeners over a whole session *)

Section Session.

Variable JSON_parse : string -> option WsData.

Lemma handle_frame now_ms data s :
  connectionStatus (handleWebSocketMessage now_ms data s) = connectionStatus s
  /\ availableProfiles (handleWebSocketMessage now_ms data s) = availableProfiles s
  /\ (isRunning (handleWebSocketMessage now_ms data s) = true -> isRunning s = true)
  /\ (exists new, messages (handleWebSocketMessage now_ms data s)
                  = (messages s ++ new)%list /\ (length new <= 1)%nat)
  /\ map (withActive false) (agents (handleWebSocketMessage now_ms data s))
     = map (withActive false) (agents s).
Proof.
  unfold handleWebSocketMessage.
  destruct (String.eqb _ "conversation_update");
    [destruct (String.eqb _ "system"); [destruct (is_finished _)|]|]; simpl;
    (split; [reflexivity|]); (split; [reflexivity|]);
    (split; [intros H; solve [exact H | discriminate H]|]).
  - split; [exists []; split; [now rewrite app_nil_r | simpl; lia] | reflexivity].
  - split; [exists []; split; [now rewrite app_nil_r | simpl; lia] | reflexivity].
  - split; [eexists; split; [reflexivity | simpl; lia]|].
    rewrite map_map. reflexivity.
  - split; [exists []; split; [now rewrite app_nil_r | simpl; lia] | reflexivity].
Qed.

Lemma listener_frame e s :
  (exists new, messages (fst (listener JSON_parse e s)) = (messages s ++ new)%list
               /\ (length new <= 1)%nat)
  /\ map (withActive false) (agents (fst (listener JSON_parse e s)))
     = map (withActive false) (agents s)
  /\ availableProfiles (fst (listener JSON_parse e s)) = availableProfiles s
  /\ (isRunning (fst (listener JSON_parse e s)) = true -> isRunning s = true).
Proof.
  assert (Hsame : forall s0, messages s0 = messages s -> agents s0 = agents s ->
            availableProfiles s0 = availableProfiles s -> isRunning s0 = isRunning s ->
            (exists new, messages s0 = (messages s ++ new)%list /\ (length new <= 1)%nat)
            /\ map (withActive false) (agents s0) = map (withActive false) (agents s)
            /\ availableProfiles s0 = availableProfiles s
            /\ (isRunning s0 = true -> isRunning s = true)).
  { intros s0 Hm Ha Hp Hr. rewrite Hm, Ha, Hp, Hr.
    split; [exists []; split; [now rewrite app_nil_r | simpl; lia] | auto]. }
  destruct e as [|now_ms payload| |]; simpl; try (apply Hsame; reflexivity).
  unfold onmessage. destruct (JSON_parse payload) as [data|]; simpl.
  - destruct (handle_frame now_ms data s) as [_ [Hp [Hr [Hm Ha]]]]. auto.
  - apply Hsame; reflexivity.
Qed.

(** Whatever the socket delivers, the message sequence only grows at its
    end, by at most one record per event: nothing is removed, replaced or
    reordered. *)
Theorem dispatch_messages_append_only (es : list SocketEvent) (s : AppState) :
  exists new,
    messages (fst (dispatch JSON_parse es s)) = (messages s ++ new)%list
    /\ (length new <= length es)%nat.
Proof.
  revert s. induction es as [|e es IH]; intros s; simpl.
  - exists []. now rewrite app_nil_r.
  - destruct (listener_frame e s) as [[new1 [H1 L1]] _].
    destruct (listener JSON_parse e s) as [s1 thrown]. simpl in H1.
    destruct (IH s1) as [new2 [H2 L2]].
    destruct (dispatch JSON_parse es s1) as [s2 log]. simpl in *.
    exists (new1 ++ new2)%list. rewrite H2, H1, <- app_assoc, length_app.
    split; [reflexivity | lia].
Qed.

(** Socket events never add, remove, reorder or rename an agent: after any
    session the roster is the one before, up to the activity flags; the
    loaded profiles are untouched. *)
Theorem dispatch_keeps_roster (es : list SocketEvent) (s : AppState) :
  map (withActive false) (agents (fst (dispatch JSON_parse es s)))
  = map (withActive false) (agents s)
  /\ length (agents (fst (dispatch JSON_parse es s))) = length (agents s)
  /\ map agent_id (agents (fst (dispatch JSON_parse es s))) = map agent_id (agents s)
  /\ map agent_name (agents (fst (dispatch JSON_parse es s))) = map agent_name (agents s)
  /\ availableProfiles (fst (dispatch JSON_parse es s)) = availableProfiles s.
Proof.
  assert (H : map (withActive false) (agents (fst (dispatch JSON_parse es s)))
              = map (withActive false) (agents s)
              /\ availableProfiles (fst (dispatch JSON_parse es s)) = availableProfiles s).
  { revert s. induction es as [|e es IH]; intros s; simpl; [split; reflexivity|].
    destruct (listener_frame e s) as [_ [Ha [Hp _]]].
    destruct (listener JSON_parse e s) as [s1 thrown]. simpl in Ha, Hp.
    destruct (IH s1) as [IHa IHp].
    destruct (dispatch JSON_parse es s1) as [s2 log]. simpl in *.
    split; congruence. }
  destruct H as [Ha Hp]. split; [exact Ha|]. split; [|split; [|split; [|exact Hp]]].
  - apply (f_equal (@length Agent)) in Ha. now rewrite !length_map in Ha.
  - apply (f_equal (map agent_id)) in Ha. now rewrite !map_map in Ha.
  - apply (f_equal (map agent_name)) in Ha. now rewrite !map_map in Ha.
Qed.

(** Socket events can end a conversation but never start one: a view that
    is not running before a session is not running after it. *)
Theorem dispatch_never_sets_running (es : list SocketEvent) (s : AppState) :
  isRunning s = false -> isRunning (fst (dispatch JSON_parse es s)) = false.
Proof.
  revert s. induction es as [|e es IH]; intros s Hs; simpl; [exact Hs|].
  destruct (listener_frame e s) as [_ [_ [_ Hr]]].
  destruct (listener JSON_parse e s) as [s1 thrown]. simpl in Hr.
  specialize (IH s1). destruct (dispatch JSON_parse es s1) as [s2 log]. simpl in *.
  apply IH. destruct (isRunning s1); [|reflexivity].
  rewrite Hr in Hs by reflexivity. discriminate.
Qed.

Lemma listener_status e s :
  connectionStatus (fst (listener JSON_parse e s))
  = match e with
    | Opened => connected
    | Received _ _ => connectionStatus s
    | Closed | Errored => disconnected
    end.
Proof.
  destruct e as [|now_ms payload| |]; simpl; try reflexivity.
  unfold onmessage. destruct (JSON_parse payload) as [data|]; simpl; [|reflexivity].
  apply handle_frame.
Qed.

(** The connection state is the one set by the last lifecycle event of the
    socket: an open makes it connected, a close or an error disconnected,
    and a received message, readable or not, leaves it as it was. *)
Theorem dispatch_connection_status (es : list SocketEvent) (s : AppState) :
  connectionStatus (fst (dispatch JSON_parse (es ++ [Opened]) s)) = connected
  /\ connectionStatus (fst (dispatch JSON_parse (es ++ [Closed]) s)) = disconnected
  /\ connectionStatus (fst (dispatch JSON_parse (es ++ [Errored]) s)) = disconnected
  /\ (forall now_ms payload,
        connectionStatus (fst (dispatch JSON_parse (es ++ [Received now_ms payload]) s))
        = connectionStatus (fst (dispatch JSON_parse es s))).
Proof.
  assert (H : forall e,
            connectionStatus (fst (dispatch JSON_parse (es ++ [e]) s))
            = connectionStatus (fst (listener JSON_parse e (fst (dispatch JSON_parse es s))))).
  { intros e. rewrite dispatch_app. destruct (dispatch JSON_parse es s) as [s1 log1].
    simpl. now destruct (listener JSON_parse e s1). }
  split; [|split; [|split]]; try intros now_ms payload; rewrite H, listener_status;
    reflexivity.
Qed.

(** Pressing stop only lowers the local flag: the feed is not told and the
    listeners do not look at the flag, so a session received after a stop
    leaves the same messages and the same roster as without the stop. *)
Theorem stop_does_not_stop_the_feed (es : list SocketEvent) (s : AppState) :
  messages (fst (dispatch JSON_parse es (stopConversation s)))
  = messages (fst (dispatch JSON_parse es s))
  /\ agents (fst (dispatch JSON_parse es (stopConversation s)))
     = agents (fst (dispatch JSON_parse es s))
  /\ connectionStatus (fst (dispatch JSON_parse es (stopConversation s)))
     = connectionStatus (fst (dispatch JSON_parse es s)).
Proof.
  assert (Hsim : forall es s1 s2,
            messages s1 = messages s2 -> agents s1 = agents s2 ->
            connectionStatus s1 = connectionStatus s2 ->
            messages (fst (dispatch JSON_parse es s1)) = messages (fst (dispatch JSON_parse es s2))
            /\ agents (fst (dispatch JSON_parse es s1)) = agents (fst (dispatch JSON_parse es s2))
            /\ connectionStatus (fst (dispatch JSON_parse es s1))
               = connectionStatus (fst (dispatch JSON_parse es s2))).
  { clear es s. induction es as [|e es IH]; intros s1 s2 Hm Ha Hc; simpl; [auto|].
    assert (Hstep : messages (fst (listener JSON_parse e s1))
                    = messages (fst (listener JSON_parse e s2))
                    /\ agents (fst (listener JSON_parse e s1))
                       = agents (fst (listener JSON_parse e s2))
                    /\ connectionStatus (fst (listener JSON_parse e s1))
                       = connectionStatus (fst (listener JSON_parse e s2))).
    { destruct e as [|now_ms payload| |]; simpl; auto.
      unfold onmessage. destruct (JSON_parse payload) as [data|]; simpl; auto.
      unfold handleWebSocketMessage.
      destruct (String.eqb _ "conversation_update"); auto.
      destruct (String.eqb _ "system"); [destruct (is_finished _); simpl; auto|].
      simpl. rewrite Hm, Ha. auto. }
    destruct (listener JSON_parse e s1) as [t1 x1], (listener JSON_parse e s2) as [t2 x2].
    simpl in Hstep. destruct Hstep as [Hm' [Ha' Hc']].
    specialize (IH t1 t2 Hm' Ha' Hc').
    destruct (dispatch JSON_parse es t1), (dispatch JSON_parse es t2). exact IH. }
  apply Hsim; reflexivity.
Qed.

End Session.

Lemma dispatch_never_sets_running_witness :
  isRunning (fst (dispatch sample_parse
                    [Opened; Received 10000 "alice says hi"; Closed] initialState))
  = false.
Proof.
  apply (dispatch_never_sets_running sample_parse
           [Opened; Received 10000 "alice says hi"; Closed] initialState).
  reflexivity.
Defined.

(** ** Starting a conversation and loading the profiles *)

Lemma two_agent_layout (id0 id1 : string) :
  id0 <> id1 ->
  useCircleLayout [id0; id1] 6 !! id0 = Some (6, 0, 0)
  /\ useCircleLayout [id0; id1] 6 !! id1 = Some (-6, 0, 0).
Proof.
  intros Hne. unfold useCircleLayout; simpl.
  rewrite lookup_insert_ne by congruence. rewrite !lookup_insert_eq.
  unfold polarToVec3, TAU.
  replace (0 / (1 + 1) * (PI * 2)) with 0 by field.
  replace (1 / (1 + 1) * (PI * 2)) with PI by field.
  rewrite cos_0, sin_0, cos_PI, sin_PI.
  split; do 2 f_equal; try f_equal; ring.
Qed.

(** A start that passes its guard with the partner's profile loaded sets the
    stage before the request is answered and whatever the answer is: the
    roster becomes the former first agent and the partner [person_alice],
    both active, any other agent being dropped; the messages are cleared; and
    the two avatars face each other across the ring, at [(6, 0, 0)] and
    [(-6, 0, 0)]. *)
Theorem startConversation_sets_the_stage
  (r : FetchOutcome) (s : AppState) (targetProfile : Profile)
  (a0 : Agent) (rest : list Agent) :
  isRunning s = false -> connectionStatus s = connected ->
  availableProfiles s !! "person_alice" = Some targetProfile ->
  agents s = a0 :: rest -> agent_id a0 <> "person_alice"%string ->
  let s' := startConversation r s in
  map agent_id (agents s') = [agent_id a0; "person_alice"%string]
  /\ map agent_isActive (agents s') = [true; true]
  /\ messages s' = []
  /\ Scene_positions (agents s') !! agent_id a0 = Some (6, 0, 0)
  /\ Scene_positions (agents s') !! "person_alice" = Some (-6, 0, 0).
Proof.
  intros Hrun Hconn Hprof Hag Hid s'.
  assert (Hagents : agents s'
            = [withName (myAgentName (availableProfiles s) (agent_name a0))
                 (withActive true a0); newAgent targetProfile]).
  { unfold s', startConversation. rewrite Hrun, Hconn. simpl.
    unfold startConversation_before_fetch. rewrite Hprof.
    destruct r as [|[] []]; simpl; rewrite Hag; reflexivity. }
  assert (Hmsgs : messages s' = []).
  { unfold s', startConversation. rewrite Hrun, Hconn. simpl.
    unfold startConversation_before_fetch. rewrite Hprof.
    destruct r as [|[] []]; reflexivity. }
  unfold Scene_positions. rewrite Hagents. simpl.
  destruct (two_agent_layout (agent_id a0) "person_alice" Hid) as [H0 H1].
  repeat split; assumption.
Qed.

Lemma startConversation_sets_the_stage_witness :
  Scene_positions (agents (startConversation NetworkFailure ready_to_start))
    !! "person_alice" = Some (-6, 0, 0).
Proof.
  refine (proj2 (proj2 (proj2 (proj2
            (startConversation_sets_the_stage NetworkFailure ready_to_start
               {| profile_name := "Alice" |} userAgent [] _ _ _ _ _))))).
  - reflexivity.
  - reflexivity.
  - apply lookup_insert_eq.
  - reflexivity.
  - discriminate.
Defined.

(** The running flag is the only guard of a start.  While it is up a
    further call changes nothing, whatever its own request would have
    returned: so it is while the request of a start is pending, and after the
    start has succeeded.  But [stopConversation] lowers the flag without
    cancelling the request: a start called after a stop passes the guard and
    runs its whole body, raising the flag again and sending a request of its
    own, while the request of the first start is still pending. *)
Theorem startConversation_guarded_by_the_flag_only (r : FetchOutcome) (s : AppState) :
  isRunning s = false -> connectionStatus s = connected ->
  let pending := startConversation_before_fetch s in
  startConversation r pending = pending
  /\ startConversation r (startConversation (Response true true) s)
     = startConversation (Response true true) s
  /\ startConversation r (stopConversation pending)
     = startConversation_after_fetch r
         (startConversation_before_fetch (stopConversation pending))
  /\ isRunning (startConversation_before_fetch (stopConversation pending)) = true.
Proof.
  intros Hrun Hconn pending.
  assert (Hbefore : forall s0, isRunning (startConversation_before_fetch s0) = true).
  { intros s0. unfold startConversation_before_fetch.
    destruct (availableProfiles s0 !! "person_alice"); reflexivity. }
  assert (Hstatus : connectionStatus pending = connected).
  { unfold pending, startConversation_before_fetch.
    destruct (availableProfiles s !! "person_alice"); simpl; exact Hconn. }
  split; [|split; [|split]].
  - apply startConversation_guarded. left. apply Hbefore.
  - unfold startConversation at 2 3. rewrite Hrun, Hconn. simpl.
    apply startConversation_guarded. left. apply Hbefore.
  - unfold startConversation.
    change (isRunning (stopConversation pending)) with false.
    change (connectionStatus (stopConversation pending)) with (connectionStatus pending).
    rewrite Hstatus. reflexivity.
  - apply Hbefore.
Qed.

Lemma startConversation_guarded_by_the_flag_only_witness :
  startConversation NetworkFailure (startConversation (Response true true) ready_to_start)
  = startConversation (Response true true) ready_to_start
  /\ isRunning (startConversation (Response true true)
                  (stopConversation (startConversation_before_fetch ready_to_start)))
     = true.
Proof.
  destruct (startConversation_guarded_by_the_flag_only (Response true true) ready_to_start
              eq_refl eq_refl) as [_ [_ [Hagain Hflag]]].
  split.
  - apply (startConversation_guarded_by_the_flag_only NetworkFailure ready_to_start);
      reflexivity.
  - rewrite Hagain. exact Hflag.
Defined.

(** Loading the profiles stores them and renames the first agent of the
    roster to the name of [my_agent], touching nothing else: every other
    agent, every identifier and flag, the messages, the running flag and the
    connection state are as before.  When [my_agent] is missing or has an
    empty name the roster is left alone.  Loading the same profiles twice is
    the same as loading them once. *)
Theorem loadProfiles_renames_first_agent_only
  (profiles : gmap string Profile) (s : AppState) :
  let s' := loadProfiles profiles s in
  availableProfiles s' = profiles
  /\ messages s' = messages s /\ isRunning s' = isRunning s
  /\ connectionStatus s' = connectionStatus s
  /\ tl (agents s') = tl (agents s)
  /\ (agents s <> [] ->
      map agent_id (agents s') = map agent_id (agents s)
      /\ map agent_isActive (agents s') = map agent_isActive (agents s))
  /\ (profiles !! "my_agent" = None -> agents s' = agents s)
  /\ (forall p, profiles !! "my_agent" = Some p ->
        (profile_name p = ""%string -> agents s' = agents s)
        /\ (profile_name p <> ""%string ->
            agent_name (hd blankAgent (agents s')) = profile_name p))
  /\ loadProfiles profiles s' = s'.
Proof.
  intros s'. unfold s', loadProfiles.
  destruct (profiles !! "my_agent") as [p|] eqn:Hp; simpl.
  - unfold truthy. destruct (String.eqb_spec (profile_name p) "") as [He | Hne]; simpl.
    + repeat (split; [reflexivity|]). split; [intros _; split; reflexivity|].
      split; [discriminate|]. split; [|reflexivity].
      intros q [= <-]. split; [reflexivity | congruence].
    + repeat (split; [reflexivity|]).
      split; [destruct (agents s); [congruence | intros _; split; reflexivity]|].
      split; [discriminate|]. split; [|reflexivity].
      intros q [= <-]. split; [congruence | reflexivity].
  - repeat (split; [reflexivity|]). split; [intros _; split; reflexivity|].
    split; [reflexivity|]. split; [discriminate | reflexivity].
Qed.

Lemma loadProfiles_renames_witness :
  map agent_id (agents (loadProfiles loaded_profiles initialState)) = ["user"%string]
  /\ agent_name (hd blankAgent (agents (loadProfiles loaded_profiles initialState)))
     = "Michael"%string.
Proof.
  destruct (loadProfiles_renames_first_agent_only loaded_profiles initialState)
    as [_ [_ [_ [_ [_ [Hids [_ [Hname _]]]]]]]].
  split.
  - apply Hids. discriminate.
  - apply (Hname {| profile_name := "Michael" |}).
    + apply lookup_insert_eq.
    + discriminate.
Defined.

(** ** The bubble timers over a whole session *)

(** Every bubble on display is backed by a message of the session whose own
    timeout is still pending. *)
Lemma receive_keeps_backing (t : Z) (ms : list ConversationMessage)
    (s : SceneState) (seen : list (Z * list ConversationMessage)) :
  (forall name text, agentMessages s !! name = Some text ->
     exists ta l m, (ta, l) ∈ seen /\ last l = Some m /\ msg_speaker m = name
                    /\ msg_message m = text /\ ((ta + 5000)%Z, name) ∈ timeouts s) ->
  forall name text, agentMessages (receive t ms s) !! name = Some text ->
     exists ta l m, (ta, l) ∈ (seen ++ [(t, ms)])%list /\ last l = Some m
                    /\ msg_speaker m = name /\ msg_message m = text
                    /\ ((ta + 5000)%Z, name) ∈ timeouts (receive t ms s).
Proof.
  intros Hinv name text Hshown.
  assert (Hadv : forall text0, agentMessages (advance t s) !! name = Some text0 ->
            exists ta l m, (ta, l) ∈ seen /\ last l = Some m /\ msg_speaker m = name
                           /\ msg_message m = text0
                           /\ ((ta + 5000)%Z, name) ∈ timeouts (advance t s)).
  { intros text0 H0. rewrite advance_lookup in H0.
    destruct (existsb _ (timeouts s)) eqn:Hex; [discriminate|].
    destruct (Hinv name text0 H0) as [ta [l [m [Hin [Hl [Hs [Hm Ht]]]]]]].
    exists ta, l, m. repeat (split; [assumption|]).
    rewrite advance_timeouts. apply list_elem_of_In, filter_In.
    split; [now apply list_elem_of_In|]. simpl.
    destruct (ta + 5000 <=? t)%Z eqn:Hdue; [|reflexivity].
    exfalso. apply not_true_iff_false in Hex. apply Hex, existsb_exists.
    exists ((ta + 5000)%Z, name). split; [now apply list_elem_of_In|].
    simpl. now rewrite Hdue, String.eqb_refl. }
  unfold receive, messagesEffect in *.
  destruct (last ms) as [latest|] eqn:Hlast.
  - simpl in *. destruct (decide (msg_speaker latest = name)) as [Heq | Hne].
    + rewrite Heq, lookup_insert_eq in Hshown. injection Hshown as <-.
      exists t, ms, latest. split; [apply elem_of_app; right; now left|].
      repeat (split; [assumption || reflexivity|]).
      apply elem_of_app. right. rewrite Heq. now left.
    + rewrite lookup_insert_ne in Hshown by exact Hne.
      destruct (Hadv text Hshown) as [ta [l [m [Hin [Hl [Hs [Hm Ht]]]]]]].
      exists ta, l, m. split; [apply elem_of_app; now left|].
      repeat (split; [assumption|]). apply elem_of_app. now left.
  - destruct (Hadv text Hshown) as [ta [l [m [Hin [Hl [Hs [Hm Ht]]]]]]].
    exists ta, l, m. split; [apply elem_of_app; now left|].
    repeat (split; [assumption|]). exact Ht.
Qed.

Lemma replay_backing (arrivals : list (Z * list ConversationMessage)) :
  forall name text, agentMessages (replay arrivals) !! name = Some text ->
    exists ta l m, (ta, l) ∈ arrivals /\ last l = Some m /\ msg_speaker m = name
                   /\ msg_message m = text
                   /\ ((ta + 5000)%Z, name) ∈ timeouts (replay arrivals).
Proof.
  unfold replay.
  assert (Hgen : forall rest s seen,
            (forall name text, agentMessages s !! name = Some text ->
               exists ta l m, (ta, l) ∈ seen /\ last l = Some m /\ msg_speaker m = name
                              /\ msg_message m = text
                              /\ ((ta + 5000)%Z, name) ∈ timeouts s) ->
            forall name text,
              agentMessages (fold_left (fun s a => receive (fst a) (snd a) s) rest s)
                !! name = Some text ->
              exists ta l m, (ta, l) ∈ (seen ++ rest)%list /\ last l = Some m
                /\ msg_speaker m = name /\ msg_message m = text
                /\ ((ta + 5000)%Z, name)
                     ∈ timeouts (fold_left (fun s a => receive (fst a) (snd a) s) rest s)).
  { induction rest as [|[t ms] rest IH]; intros s seen Hinv name text H; simpl in *.
    - rewrite app_nil_r. now apply Hinv.
    - replace (seen ++ (t, ms) :: rest)%list with ((seen ++ [(t, ms)]) ++ rest)%list
        by now rewrite <- app_assoc.
      apply (IH (receive t ms s)); [|exact H].
      now apply receive_keeps_backing. }
  intros name text H. apply (Hgen arrivals Scene_init []); [|exact H].
  intros n x Hx. simpl in Hx. rewrite lookup_empty in Hx. discriminate.
Qed.

(** An own entry of [agentMessages] that has outlived the timers due so far
    is backed by a message that arrived less than five seconds earlier. *)
Lemma agentMessages_entry_inv (arrivals : list (Z * list ConversationMessage))
    (t : Z) (name text : string) :
  agentMessages (advance t (replay arrivals)) !! name = Some text ->
  exists ta l m, (ta, l) ∈ arrivals /\ last l = Some m /\ msg_speaker m = name
                 /\ msg_message m = text /\ (t < ta + 5000)%Z.
Proof.
  intros Hx. rewrite advance_lookup in Hx.
  destruct (existsb _ (timeouts (replay arrivals))) eqn:Hex; [discriminate|].
  destruct (replay_backing arrivals name text Hx) as [ta [l [m [Hin [Hl [Hs [Hm Ht]]]]]]].
  exists ta, l, m. repeat (split; [assumption|]).
  destruct (Z.lt_ge_cases t (ta + 5000)) as [Hlt | Hge]; [exact Hlt | exfalso].
  apply not_true_iff_false in Hex. apply Hex, existsb_exists.
  exists ((ta + 5000)%Z, name). split; [now apply list_elem_of_In|]. simpl.
  rewrite String.eqb_refl. assert ((ta + 5000 <=? t)%Z = true) as -> by lia.
  reflexivity.
Qed.

(** A bubble never shows a text older than five seconds: a text handed to
    an agent's avatar is not empty and is the text of a message of that agent
    that reached the scene less than 5000 ms earlier.  The one bubble without
    such a text is drawn for an agent whose name is a property of
    [Object.prototype] ([constructor], [toString], ...): when no text is
    stored under that name, the read [agentMessages[agent.name]] finds the
    inherited value.  For every other name the avatar is handed exactly the
    stored text that is not empty, or [null]. *)
Theorem avatar_message_is_fresh_or_inherited
  (arrivals : list (Z * list ConversationMessage)) (t : Z) (name : string) :
  (forall text, avatarMessageAt arrivals t name = Some (Text text) ->
     text <> ""%string
     /\ exists ta l m, (ta, l) ∈ arrivals /\ last l = Some m /\ msg_speaker m = name
                       /\ msg_message m = text /\ (t < ta + 5000)%Z)
  /\ (avatarMessageAt arrivals t name = Some Inherited ->
        inherited name = true
        /\ agentMessages (advance t (replay arrivals)) !! name = None)
  /\ (inherited name = false ->
        avatarMessageAt arrivals t name = Text <$> bubbleAt arrivals t name).
Proof.
  unfold avatarMessageAt, currentMessage, bubbleAt.
  destruct (agentMessages (advance t (replay arrivals)) !! name) as [x|] eqn:Hx.
  - split; [|split].
    + intros text H. unfold truthy in H.
      destruct (String.eqb_spec x "") as [He | Hne]; simpl in H; [discriminate|].
      injection H as <-. split; [exact Hne|].
      now apply agentMessages_entry_inv.
    + intros H. destruct (truthy x); discriminate H.
    + intros _. destruct (truthy x); reflexivity.
  - split; [|split].
    + intros text H. destruct (inherited name); discriminate H.
    + intros H. destruct (inherited name); [split; reflexivity | discriminate H].
    + intros ->. reflexivity.
Qed.

Lemma avatar_message_is_fresh_or_inherited_witness :
  (exists ta l m,
     (ta, l) ∈ [(0%Z, [alice_first])] /\ last l = Some m
     /\ msg_speaker m = "Alice"%string /\ msg_message m = "hello"%string
     /\ (4999 < ta + 5000)%Z)
  /\ avatarMessageAt [(0%Z, [alice_first])] 4999 "constructor" = Some Inherited.
Proof.
  destruct (avatar_message_is_fresh_or_inherited [(0%Z, [alice_first])] 4999 "Alice")
    as [Hfresh _].
  split.
  - apply (Hfresh "hello"%string). vm_compute. reflexivity.
  - vm_compute. reflexivity.
Defined.

(** Five seconds after the last message of a session no text is left on
    display.  The bubbles that remain are those of the agents named after a
    property of [Object.prototype]: they hold the inherited value, not a
    message, and no timer ever removes them. *)
Theorem no_text_on_display_5s_after_last_message
  (arrivals : list (Z * list ConversationMessage)) (latest t : Z) (name : string) :
  (forall a, a ∈ arrivals -> (fst a <= latest)%Z) -> (latest + 5000 <= t)%Z ->
  agentMessages (advance t (replay arrivals)) !! name = None
  /\ avatarMessageAt arrivals t name
     = (if inherited name then Some Inherited else None).
Proof.
  intros Hall Ht.
  assert (Hnone : agentMessages (advance t (replay arrivals)) !! name = None).
  { destruct (agentMessages (advance t (replay arrivals)) !! name) as [text|] eqn:H;
      [|reflexivity].
    exfalso. apply agentMessages_entry_inv in H as [ta [l [m [Hin [_ [_ [_ Hlt]]]]]]].
    specialize (Hall (ta, l) Hin). simpl in Hall. lia. }
  split; [exact Hnone|].
  unfold avatarMessageAt, currentMessage. now rewrite Hnone.
Qed.

Lemma no_text_on_display_witness :
  avatarMessageAt [(0%Z, [alice_first]); (3000%Z, [alice_first; alice_second])] 8000 "Alice"
  = None
  /\ avatarMessageAt [(0%Z, [alice_first]); (3000%Z, [alice_first; alice_second])] 60000
       "constructor"
     = Some Inherited.
Proof.
  assert (Hall : forall a : Z * list ConversationMessage,
            a ∈ [(0%Z, [alice_first]); (3000%Z, [alice_first; alice_second])] ->
            (fst a <= 3000)%Z).
  { intros a Ha. apply elem_of_cons in Ha as [-> | Ha]; [simpl; lia|].
    apply list_elem_of_singleton in Ha as ->. simpl. lia. }
  split.
  - apply (no_text_on_display_5s_after_last_message _ 3000 8000 "Alice" Hall). lia.
  - apply (no_text_on_display_5s_after_last_message _ 3000 60000 "constructor" Hall). lia.
Defined.

(** ** The playback clock over several frames, and seeking *)

Lemma frames_paused duration (deltas : list R) : forall c,
  playing c = false -> run duration c (map Frame deltas) = c.
Proof.
  induction deltas as [|d deltas IH]; intros c Hp; simpl; [reflexivity|].
  unfold run in IH. rewrite frame_paused by exact Hp. now apply IH.
Qed.

Lemma frames_playing duration (deltas : list R) : forall c,
  playing c = true -> 0 <= speedRef c -> Forall (Rle 0) deltas ->
  time c <= duration ->
  time (run duration c (map Frame deltas))
  = Rmin (time c + total deltas * speedRef c) duration
  /\ playing (run duration c (map Frame deltas)) = true
  /\ speedRef (run duration c (map Frame deltas)) = speedRef c.
Proof.
  induction deltas as [|d deltas IH]; intros c Hp Hs Hall Ht; simpl.
  - split; [|split; [exact Hp | reflexivity]].
    unfold Rmin. destruct (Rle_dec _ duration); lra.
  - apply Forall_cons in Hall as [Hd Hall].
    assert (Htot : 0 <= total deltas).
    { clear -Hall. induction Hall; simpl; lra. }
    pose proof (frame_time duration d c Hp) as Hf.
    assert (Hf' : time (frame duration d c) <= duration)
      by (rewrite Hf; apply Rmin_r).
    destruct (IH (frame duration d c)) as [H1 [H2 H3]].
    + now rewrite frame_playing.
    + now rewrite frame_speed.
    + exact Hall.
    + exact Hf'.
    + unfold run in *. rewrite H1, H2, H3, Hf, frame_speed.
      split; [|split; reflexivity].
      assert (0 <= d * speedRef c) by nra.
      assert (0 <= total deltas * speedRef c) by nra.
      unfold Rmin.
      destruct (Rle_dec (time c + d * speedRef c) duration);
        destruct (Rle_dec _ duration); destruct (Rle_dec _ duration); lra.
Qed.

(** The playback clock depends on the time elapsed, not on how it is cut
    into frames: after any number of frames a playing clock stands at
    [min (time + total delta * speed, duration)], so it reaches the ceiling as
    soon as the scaled total covers what was left, and stays playing; a
    paused clock is not moved by any number of frames. *)
Theorem playback_frames_compose (duration : R) (c : Clock) (deltas : list R) :
  0 <= speedRef c -> Forall (Rle 0) deltas -> time c <= duration ->
  let c' := run duration c (map Frame deltas) in
  (playing c = true ->
     time c' = Rmin (time c + total deltas * speedRef c) duration
     /\ playing c' = true
     /\ (duration <= time c + total deltas * speedRef c -> time c' = duration))
  /\ (playing c = false -> c' = c).
Proof.
  intros Hs Hall Ht c'. split.
  - intros Hp. destruct (frames_playing duration deltas c Hp Hs Hall Ht) as [H1 [H2 _]].
    split; [exact H1|]. split; [exact H2|]. intros Hge. unfold c'. rewrite H1.
    unfold Rmin. destruct (Rle_dec _ duration); lra.
  - intros Hp. now apply frames_paused.
Qed.

Lemma playback_frames_compose_witness :
  time (run 6 (usePlayback_init true 2) (map Frame [1; 1; 0.5])) = Rmin (0 + 2.5 * 2) 6
  /\ run 6 (usePlayback_init false 2) (map Frame [1; 1; 0.5]) = usePlayback_init false 2.
Proof.
  assert (Hall : Forall (Rle 0) [1; 1; 0.5]) by (repeat constructor; lra).
  destruct (playback_frames_compose 6 (usePlayback_init true 2) [1; 1; 0.5])
    as [Hplay _]; [simpl; lra | exact Hall | simpl; lra |].
  destruct (playback_frames_compose 6 (usePlayback_init false 2) [1; 1; 0.5])
    as [_ Hpause]; [simpl; lra | exact Hall | simpl; lra |].
  split.
  - destruct (Hplay eq_refl) as [H _]. rewrite H. simpl. f_equal. lra.
  - apply Hpause. reflexivity.
Defined.

(** Seeking lands exactly on a target inside [[0, duration]], on 0 for a
    negative target and on [duration] for a target beyond it; it changes
    neither the play state nor the speed, and seeking twice to the same
    target is seeking once. *)
Theorem seek_clamps_to_range (duration t : R) (c : Clock) :
  0 <= duration ->
  0 <= time (seek duration t c) <= duration
  /\ (0 <= t <= duration -> time (seek duration t c) = t)
  /\ (t < 0 -> time (seek duration t c) = 0)
  /\ (duration < t -> time (seek duration t c) = duration)
  /\ playing (seek duration t c) = playing c
  /\ speedRef (seek duration t c) = speedRef c
  /\ seek duration t (seek duration t c) = seek duration t c.
Proof.
  intros Hd. unfold seek; simpl.
  assert (Hcases : forall x, Rmax 0 (Rmin duration x) =
            if Rle_dec x 0 then 0 else if Rle_dec duration x then duration else x).
  { intros x. unfold Rmax, Rmin.
    destruct (Rle_dec duration x), (Rle_dec x 0); try destruct (Rle_dec 0 duration);
      try destruct (Rle_dec 0 x); lra. }
  rewrite Hcases.
  split; [|split; [|split; [|split; [|split; [|split]]]]]; try reflexivity.
  - destruct (Rle_dec t 0); [lra|]. destruct (Rle_dec duration t); lra.
  - intros Hin. destruct (Rle_dec t 0); [lra|]. destruct (Rle_dec duration t); lra.
  - intros Hneg. destruct (Rle_dec t 0); lra.
  - intros Hbig. destruct (Rle_dec t 0); [lra|]. destruct (Rle_dec duration t); lra.
Qed.

Lemma seek_clamps_to_range_witness :
  time (seek 6 2.5 (usePlayback_init true 1)) = 2.5
  /\ time (seek 6 (-1) (usePlayback_init true 1)) = 0
  /\ time (seek 6 9 (usePlayback_init true 1)) = 6.
Proof.
  assert (Hd : 0 <= 6) by lra.
  destruct (seek_clamps_to_range 6 2.5 (usePlayback_init true 1) Hd) as [_ [H1 _]].
  destruct (seek_clamps_to_range 6 (-1) (usePlayback_init true 1) Hd) as [_ [_ [H2 _]]].
  destruct (seek_clamps_to_range 6 9 (usePlayback_init true 1) Hd) as [_ [_ [_ [H3 _]]]].
  split; [apply H1; lra | split; [apply H2; lra | apply H3; lra]].
Defined.

(** ** The replay scene *)

Lemma fold_left_Rmax_ge (l : list R) : forall x,
  x <= fold_left Rmax l x /\ forall y, In y l -> y <= fold_left Rmax l x.
Proof.
  induction l as [|a l IH]; intros x; simpl.
  - split; [lra | tauto].
  - destruct (IH (Rmax x a)) as [H1 H2].
    pose proof (Rmax_l x a). pose proof (Rmax_r x a).
    split; [lra|]. intros y [<- | Hy]; [lra | now apply H2].
Qed.

Lemma sceneDuration_covers (ts : list R) (t : R) :
  In t ts -> t + 3 <= sceneDuration None ts.
Proof.
  destruct ts as [|t0 rest]; simpl; [tauto|]. intros Hin.
  destruct (fold_left_Rmax_ge rest t0) as [H0 Hrest].
  pose proof (Rmax_r 6 (fold_left Rmax rest t0 + 3)).
  destruct Hin as [<- | Hin]; [lra|]. specialize (Hrest t Hin). lra.
Qed.

(** When no duration is imposed, the replay lasts at least 6 seconds and at
    least 3 seconds beyond the start of every interaction; since a transit
    takes 2 seconds, no orb is left in flight when the clock stops at its
    ceiling. *)
Theorem replay_ends_after_every_transit
  (interactions : list Interaction) (positions : gmap string Vec3) (m : Interaction) :
  m ∈ interactions ->
  let duration := Replay_duration None interactions in
  6 <= duration
  /\ int_t m + 3 <= duration
  /\ Replay_orb positions duration m = None.
Proof.
  intros Hin duration.
  assert (H6 : 6 <= duration) by apply sceneDuration_derived.
  assert (Hm : int_t m + 3 <= duration).
  { apply sceneDuration_covers. apply in_map_iff. exists m.
    split; [reflexivity | now apply list_elem_of_In]. }
  split; [exact H6|]. split; [exact Hm|]. unfold Replay_orb.
  destruct (positions !! int_from m); [|reflexivity].
  destruct (positions !! int_to m); [|reflexivity].
  apply MessageOrb_hidden. right.
  apply (proj2 (tNorm_sign (int_t m) 2 duration ltac:(lra))). lra.
Qed.

Lemma replay_ends_after_every_transit_witness :
  Replay_orb (useCircleLayout ["agent_alice"; "agent_bob"; "nova_lead"; "human"]%string 6)
    (Replay_duration None [evt_0; evt_5]) evt_5 = None.
Proof.
  apply (replay_ends_after_every_transit [evt_0; evt_5]
           (useCircleLayout ["agent_alice"; "agent_bob"; "nova_lead"; "human"]%string 6)
           evt_5).
  right. now left.
Defined.

(** ** Message identifiers *)

Lemma Number_toString_inj (a b : Z) :
  Number_toString a = Number_toString b -> a = b.
Proof.
  unfold Number_toString. intros H. apply DecimalZ.to_int_inj.
  assert (Hok : forall z, Z.to_int z <> Decimal.Pos Decimal.Nil
                          /\ Z.to_int z <> Decimal.Neg Decimal.Nil).
  { intros [|p|p]; simpl; split; try discriminate; intros [= Hp];
      now apply DecimalPos.Unsigned.to_uint_nonnil in Hp. }
  destruct (Hok a) as [Ha1 Ha2], (Hok b) as [Hb1 Hb2].
  pose proof (NilZero.isi (Z.to_int a) Ha1 Ha2) as Ea.
  pose proof (NilZero.isi (Z.to_int b) Hb1 Hb2) as Eb.
  rewrite H in Ea. congruence.
Qed.

Lemma digits_no_underscore (d : Decimal.uint) :
  ~ In "_"%char (list_ascii_of_string (NilEmpty.string_of_uint d)).
Proof.
  induction d; simpl; [tauto|..]; intros [H | H];
    solve [discriminate H | now apply IHd].
Qed.

Lemma Number_toString_no_underscore (z : Z) :
  ~ In "_"%char (list_ascii_of_string (Number_toString z)).
Proof.
  unfold Number_toString, NilZero.string_of_int, NilZero.string_of_uint.
  destruct (Z.to_int z) as [d | d]; destruct d; simpl;
    intros H; repeat (destruct H as [H | H]; [discriminate H|]);
    try contradiction; revert H; apply digits_no_underscore.
Qed.

Lemma underscore_in_append (a b : string) :
  In "_"%char (list_ascii_of_string (a +:+ "_" +:+ b)).
Proof.
  induction a as [|c a IH].
  - now left.
  - change (String c a +:+ "_" +:+ b) with (String c (a +:+ "_" +:+ b)).
    simpl. now right.
Qed.

Lemma split_at_last_underscore (a b x y : string) :
  ~ In "_"%char (list_ascii_of_string x) ->
  ~ In "_"%char (list_ascii_of_string y) ->
  (a +:+ "_" +:+ x = b +:+ "_" +:+ y)%string -> a = b /\ x = y.
Proof.
  intros Hx Hy. revert b. induction a as [|c a IH]; intros [|d b] H.
  - change (String "_" x = String "_" y) in H. injection H as ->.
    split; reflexivity.
  - change (String "_" x = String d (b +:+ "_" +:+ y)) in H.
    injection H as _ ->. exfalso. apply Hx, underscore_in_append.
  - change (String c (a +:+ "_" +:+ x) = String "_" y) in H.
    injection H as _ <-. exfalso. apply Hy, underscore_in_append.
  - change (String c (a +:+ "_" +:+ x) = String d (b +:+ "_" +:+ y)) in H.
    injection H as -> H. destruct (IH b H) as [-> ->]. split; reflexivity.
Qed.

(** The identifier of a message record names its conversation and its turn
    and nothing else: two updates get the same identifier exactly when they
    carry the same conversation identifier and the same turn number; the
    arrival time, the speaker and the text play no part, so an update that is
    delivered twice yields two records under one identifier. *)
Theorem message_id_names_conversation_and_turn
  (now1 now2 : Z) (u1 u2 : ConversationUpdate) :
  msg_id (message_of now1 u1) = msg_id (message_of now2 u2)
  <-> conversation_id u1 = conversation_id u2 /\ turn_number u1 = turn_number u2.
Proof.
  simpl. split.
  - intros H. apply split_at_last_underscore in H as [Hc Ht];
      try apply Number_toString_no_underscore.
    split; [exact Hc | now apply Number_toString_inj].
  - intros [-> ->]. reflexivity.
Qed.

(** ** The shape of an orb's path *)

(** With its two inner control points a third and two thirds of the way, the
    orb moves at uniform speed along the straight line from sender to
    receiver as seen from above, and only its height bends: between two
    positions on the ground the height at progress [t] is
    [3 * height * t * (1 - t)], which is never below the ground, and peaks at
    three quarters of [height] in mid-flight. *)
Theorem orb_path_shape (fromPos toPos : Vec3) (height t : R) :
  let p := bezier3 fromPos (mid1 fromPos toPos height)
             (mid2 fromPos toPos height) toPos t in
  vx p = lerp (vx fromPos) (vx toPos) t
  /\ vz p = lerp (vz fromPos) (vz toPos) t
  /\ (vy fromPos = 0 -> vy toPos = 0 ->
      vy p = 3 * height * t * (1 - t)
      /\ (0 <= height -> 0 <= t <= 1 -> 0 <= vy p <= 3 / 4 * height)
      /\ (t = 1 / 2 -> vy p = 3 / 4 * height)).
Proof.
  intros p.
  assert (Hx : vx p = lerp (vx fromPos) (vx toPos) t).
  { unfold p, bezier3, mid1, mid2, vec3Lerp, lerp, vx, vy, vz; simpl. field. }
  assert (Hz : vz p = lerp (vz fromPos) (vz toPos) t).
  { unfold p, bezier3, mid1, mid2, vec3Lerp, lerp, vx, vy, vz; simpl. field. }
  split; [exact Hx|]. split; [exact Hz|]. intros Hf Ht.
  assert (Hy : vy p = 3 * height * t * (1 - t)).
  { unfold p, bezier3, mid1, mid2, vec3Lerp, lerp in *.
    unfold vx, vy, vz in *; simpl in *. rewrite Hf, Ht. ring. }
  split; [exact Hy|]. split.
  - intros Hh Hrange. rewrite Hy.
    assert (H0 : 0 <= t * (1 - t)) by (apply Rmult_le_pos; lra).
    assert (H1 : 0 <= (t - 1 / 2) * (t - 1 / 2)) by apply (Rle_0_sqr (t - 1 / 2)).
    pose proof (Rmult_le_pos _ _ Hh H0) as H2.
    pose proof (Rmult_le_pos _ _ Hh H1) as H3.
    split; lra.
  - intros ->. rewrite Hy. field.
Qed.

Lemma orb_path_shape_witness :
  vy (bezier3 (6, 0, 0) (mid1 (6, 0, 0) (-6, 0, 0) 1.5)
        (mid2 (6, 0, 0) (-6, 0, 0) 1.5) (-6, 0, 0) (1 / 2)) = 3 / 4 * 1.5.
Proof.
  destruct (orb_path_shape (6, 0, 0) (-6, 0, 0) 1.5 (1 / 2)) as [_ [_ H]].
  destruct (H eq_refl eq_refl) as [_ [_ Hpeak]]. apply Hpeak. reflexivity.
Defined.

(** ** The layout on rosters that are empty or repeat an identifier *)

Lemma forEach_set_app r n (pre post : list string) : forall i (m : gmap string Vec3),
  forEach_set r n i (pre ++ post) m
  = forEach_set r n (i + length pre) post (forEach_set r n i pre m).
Proof.
  induction pre as [|a pre IH]; intros i m; simpl.
  - now rewrite Nat.add_0_r.
  - rewrite IH. f_equal. lia.
Qed.

(** The layout holds no position for an identifier that is not on the
    roster, and none at all for an empty roster; when an identifier occurs
    more than once the later occurrence overwrites the earlier, so the agent
    stands at the place of its last index. *)
Theorem useCircleLayout_missing_and_repeated_ids
  (pre post : list string) (id : string) (r : R) :
  useCircleLayout [] r = ∅
  /\ (id ∉ (pre ++ post)%list -> useCircleLayout (pre ++ post) r !! id = None)
  /\ (id ∉ post ->
      useCircleLayout (pre ++ id :: post) r !! id
      = Some (ring_point r (length (pre ++ id :: post)) (length pre))).
Proof.
  split; [reflexivity|]. split.
  - intros Hnot. unfold useCircleLayout.
    rewrite forEach_set_notin by exact Hnot. apply lookup_empty.
  - intros Hnot. unfold useCircleLayout.
    replace (Nat.max (length (pre ++ id :: post)) 1) with (length (pre ++ id :: post))
      by (rewrite length_app; simpl; lia).
    rewrite forEach_set_app. simpl.
    rewrite forEach_set_notin by exact Hnot. rewrite lookup_insert_eq.
    now rewrite polarToVec3_ring_point.
Qed.

Lemma useCircleLayout_repeated_ids_witness :
  useCircleLayout ["a"; "b"; "a"]%string 6 !! "a"%string = Some (ring_point 6 3 2)
  /\ useCircleLayout ["a"; "b"]%string 6 !! "c"%string = None.
Proof.
  destruct (useCircleLayout_missing_and_repeated_ids ["a"; "b"]%string [] "a"%string 6)
    as [_ [_ Hlast]].
  destruct (useCircleLayout_missing_and_repeated_ids ["a"; "b"]%string [] "c"%string 6)
    as [_ [Hmiss _]].
  split.
  - apply Hlast. apply not_elem_of_nil.
  - rewrite app_nil_r in Hmiss. apply Hmiss.
    intros H. apply elem_of_cons in H as [H | H]; [discriminate|].
    apply list_elem_of_singleton in H. discriminate.
Defined.
